(** * DigitalGel: a shallow embedding of [DigitalGel.py]

    The Python module draws a simulated agarose gel with [svgwrite]: a
    ladder lane followed by the data lanes, every band placed on a pixel
    row by a logarithmic migration model.

    Conventions of the embedding.
    - Python [int]s are [Z]; in the classes, Python [float]s are real
      numbers ([R]): the arithmetic of [math.log10], [/], [*] and [-] is
      the exact one. What is proved of a pixel row or of a brightness
      holds of that exact reading; the binary64 value the program computes
      can differ from it (a row by one, a quotient that is zero only after
      rounding). Line 81 is given a second time in binary64, in [B64],
      for the one property that rounding decides.
    - A Python exception is a value of [exn]; code that can raise returns
      a [result].
    - The [svgwrite] drawing is the list of elements added to it, in
      order; [tostring] and [save] hand out that document. *)

From Stdlib Require Import ZArith List String Ascii Reals Lra Lia DecimalString Sorted.
From Stdlib Require Floats.
From stdpp Require Import base gmap strings list.

Open Scope Z_scope.

(** ** Python's built-ins used by the module *)

Inductive exn : Type :=
| ValueError_empty (fn : string)   (* ValueError: fn() arg is an empty sequence *)
| ValueError_math_domain           (* ValueError: math domain error *)
| ZeroDivisionError.               (* ZeroDivisionError: float division by zero *)

Inductive result (A : Type) : Type :=
| Ok (a : A)
| Raise (e : exn).
Arguments Ok {A} a.
Arguments Raise {A} e.

#[global] Instance result_ret : MRet result := fun A a => Ok a.
#[global] Instance result_bind : MBind result := fun A B k c =>
  match c with
  | Ok a => k a
  | Raise e => Raise e
  end.
#[global] Instance result_fmap : FMap result := fun A B f c =>
  match c with
  | Ok a => Ok (f a)
  | Raise e => Raise e
  end.

(** [for x in xs] over a body that can raise, threading the loop state. *)
Fixpoint for_each {A S : Type} (body : S -> A -> result S) (s : S) (xs : list A)
  : result S :=
  match xs with
  | [] => Ok s
  | x :: rest => s' ← body s x; for_each body s' rest
  end.

(** [[f(x) for x in xs]], stopping at the first exception. *)
Fixpoint map_result {A B : Type} (f : A -> result B) (xs : list A) : result (list B) :=
  match xs with
  | [] => Ok []
  | x :: rest => y ← f x; ys ← map_result f rest; Ok (y :: ys)
  end.

Module Py.

(** [max(iterable)]: the first maximal item; [ValueError] on an empty one. *)
Definition max_Z (xs : list Z) : result Z :=
  match xs with
  | [] => Raise (ValueError_empty "max")
  | x :: rest => Ok (fold_left (fun m y => if m <? y then y else m) rest x)
  end.

Definition min_Z (xs : list Z) : result Z :=
  match xs with
  | [] => Raise (ValueError_empty "min")
  | x :: rest => Ok (fold_left (fun m y => if y <? m then y else m) rest x)
  end.

(** [max(a, b)] on floats: [b] when [b > a], else [a]. *)
Definition max2_R (a b : R) : R := if Rlt_dec a b then b else a.

Definition max_R (xs : list R) : result R :=
  match xs with
  | [] => Raise (ValueError_empty "max")
  | x :: rest => Ok (fold_left max2_R rest x)
  end.

(** [int(x)] on a float: truncation towards zero. *)
Definition int_R (x : R) : Z :=
  if Rlt_dec x 0 then (- Int_part (- x))%Z else Int_part x.

(** [math.log10] on an [int]. *)
Definition log10 (n : Z) : result R :=
  if n <=? 0 then Raise ValueError_math_domain
  else Ok (ln (IZR n) / ln 10)%R.

(** [str(n)] for an [int]. *)
Definition str (n : Z) : string := NilZero.string_of_int (Z.to_int n).

Fixpoint replicate_char (n : nat) (c : ascii) : string :=
  match n with
  | O => EmptyString
  | S k => String c (replicate_char k c)
  end.

(** [s.rjust(width, fillchar)]. *)
Definition rjust (s : string) (width : nat) (fillchar : ascii) : string :=
  (replicate_char (width - String.length s) fillchar ++ s)%string.

(** [x in xs] for a list of [int]s. *)
Definition contains (x : Z) (xs : list Z) : bool := existsb (Z.eqb x) xs.

(** Truth value of an optional string ([None] and [""] are false). *)
Definition truthy (s : option string) : bool :=
  match s with
  | None => false
  | Some EmptyString => false
  | Some _ => true
  end.

End Py.

(** ** The canvas: what the module asks of [svgwrite] *)

Module svgwrite.

#[local] Unset Elimination Schemes.
Inductive Element : Type :=
| Rect (insert size : Z * Z) (fill : string) (opacity : option R)
| Text (text : string) (insert : Z * Z) (stroke font_size fill : string)
| Group (class_ : string) (children : list Element)
| Hyperlink (href target : string) (children : list Element).
#[local] Set Elimination Schemes.

Record Drawing : Type := mkDrawing {
  filename : string;
  profile : string;
  stylesheets : list (string * string);
  elements : list Element
}.

(** [dwg.add(element)]: the element goes to the end of the document. *)
Definition add (dwg : Drawing) (e : Element) : Drawing :=
  {| filename := filename dwg; profile := profile dwg;
     stylesheets := stylesheets dwg; elements := elements dwg ++ [e] |}.

Definition add_stylesheet (dwg : Drawing) (href title : string) : Drawing :=
  {| filename := filename dwg; profile := profile dwg;
     stylesheets := stylesheets dwg ++ [(href, title)]; elements := elements dwg |}.

(** [dwg.add] for each element of [es] in turn. *)
Definition add_all (dwg : Drawing) (es : list Element) : Drawing :=
  fold_left add es dwg.

(** [svgwrite.rgb(100, 100, 100, '%')]. *)
Definition rgb_100pct : string := "rgb(100%,100%,100%)".

End svgwrite.

(** ** class drawParams *)

Module drawParams.

Record t : Type := mk {
  gelHeight : Z;
  margin : Z;
  laneWidth : Z;
  gapWidth : Z;
  fontsize : Z;
  dilationFactor : Z
}.

(** [drawParams()] with the default arguments. *)
Definition default : t :=
  {| gelHeight := 400; margin := 60; laneWidth := 30; gapWidth := 20;
     fontsize := 12; dilationFactor := 5 |}.

(** [if dParam == None: dParam = drawParams()]. *)
Definition or_default (dParam : option t) : t :=
  match dParam with
  | Some p => p
  | None => default
  end.

End drawParams.

(** ** class Band *)

Module Band.

Record t : Type := mk {
  numBases : Z;
  annot : string;
  link : option string;
  reads : R
}.

(** [Band.draw]: the elements one band adds to the drawing. *)
Definition draw (self : t) (dwg : svgwrite.Drawing) (xCoord yCoord : Z)
    (intensity : R) (dParam : option drawParams.t) (isLadder : bool)
  : svgwrite.Drawing :=
  let dParam := drawParams.or_default dParam in
  let bandLine :=
    svgwrite.Rect (xCoord, yCoord) (drawParams.laneWidth dParam, 1) "white"
                  (Some intensity) in
  let x := if isLadder
           then xCoord - Py.int_R (IZR (drawParams.margin dParam) * 2 / 3)
           else 0 in
  let y := if isLadder
           then yCoord + 3
           else drawParams.gelHeight dParam + 2 * drawParams.margin dParam - 5 in
  let g :=
    svgwrite.Group (if negb isLadder then "label" else "text")
      [svgwrite.Text (annot self) (x, y) "none"
         (Py.str (drawParams.fontsize dParam) ++ "px")%string
         svgwrite.rgb_100pct] in
  if Py.truthy (link self) then
    (* the hyperlink is added on creation and once more after it is filled;
       both entries are the one object, so both show its two children *)
    let href := match link self with Some h => h | None => EmptyString end in
    let link := svgwrite.Hyperlink href "_top" [bandLine; g] in
    svgwrite.add (svgwrite.add dwg link) link
  else
    svgwrite.add (svgwrite.add dwg bandLine) g.

End Band.

(** ** class Lane *)

Module Lane.

Record t : Type := mk {
  name : string;
  bands : list Band.t;
  isLadder : bool;
  gelHeight : Z;
  dilationFactor : Z
}.

(** [Lane.__init__]; [list(bands)] is the band sequence as it is at the
    time of the call. *)
Definition init (name : string) (bands : list Band.t)
    (dParam : option drawParams.t) (isLadder : bool) : t :=
  let dParam := drawParams.or_default dParam in
  {| name := name; bands := bands; isLadder := isLadder;
     gelHeight := drawParams.gelHeight dParam;
     dilationFactor := drawParams.dilationFactor dParam |}.

(** [Lane.__distance], over the reals, for the integer dilation factor of
    the record; [B64.distance] is the same line in binary64. *)
Definition distance (self : t) (numBases : Z) : result R :=
  l ← Py.log10 numBases;
  Ok (IZR (dilationFactor self) * (4 - l))%R.

(** [Lane.__lengthtoIndex], over the reals: the division raises when
    [expFactor] is zero as a real number, and [int] truncates the exact
    quotient. *)
Definition lengthtoIndex (self : t) (band : Band.t) (low high : Z) : result Z :=
  minimum ← distance self high;
  dlow ← distance self low;
  let expFactor := (dlow - minimum)%R in
  dband ← distance self (Band.numBases band);
  if Req_dec_T expFactor 0 then Raise ZeroDivisionError
  else Ok (Py.int_R ((dband - minimum) / expFactor * IZR (gelHeight self - 1))).

Definition minBandIntensity : R := 0.2%R.

(** The brightness of a band (lines 114-119): a ladder band shows its own
    [reads], a data band its share of the lane's largest [reads]. *)
Definition intensity (self : t) (maxNum : R) (band : Band.t) : result R :=
  if isLadder self then Ok (Band.reads band)
  else if Req_dec_T maxNum 0 then Raise ZeroDivisionError
  else
    let val := (1 - (maxNum - Band.reads band) / maxNum)%R in
    Ok (Py.max2_R val minBandIntensity).

(** One turn of the loop over the bands (lines 112-122); the state is the
    dictionary [SeenY] and the drawing. *)
Definition draw_band (self : t) (xCoord minBandSize maxBandSize : Z)
    (dParam : drawParams.t) (maxNum : R)
    (st : gmap Z Z * svgwrite.Drawing) (band : Band.t)
  : result (gmap Z Z * svgwrite.Drawing) :=
  let '(SeenY, dwg) := st in
  idx ← lengthtoIndex self band minBandSize maxBandSize;
  let yCoord := idx + drawParams.margin dParam in
  i ← intensity self maxNum band;
  match SeenY !! yCoord with
  | None =>
      Ok (<[yCoord := 1]> SeenY,
          Band.draw band dwg xCoord yCoord i (Some dParam) (isLadder self))
  | Some _ => Ok (SeenY, dwg)
  end.

(** The loop of lines 110-123 over a band list. *)
Definition draw_bands (self : t) (xCoord minBandSize maxBandSize : Z)
    (dParam : drawParams.t) (maxNum : R)
    (st : gmap Z Z * svgwrite.Drawing) (bs : list Band.t)
  : result (gmap Z Z * svgwrite.Drawing) :=
  for_each (draw_band self xCoord minBandSize maxBandSize dParam maxNum) st bs.

(** [Lane.draw]. *)
Definition draw (self : t) (dwg : svgwrite.Drawing) (xCoord minBandSize maxBandSize : Z)
    (dParam : option drawParams.t) : result svgwrite.Drawing :=
  let dParam := drawParams.or_default dParam in
  let dwg :=
    svgwrite.add dwg
      (svgwrite.Text (name self) (xCoord, 10) "none"
         (Py.str (drawParams.fontsize dParam) ++ "px")%string
         svgwrite.rgb_100pct) in
  maxNum ← Py.max_R (map Band.reads (bands self));
  '(_, dwg) ← draw_bands self xCoord minBandSize maxBandSize dParam maxNum
                (∅, dwg) (bands self);
  Ok dwg.

End Lane.

(** ** class Gel *)

Module Gel.

Record t : Type := mk {
  boldLadder : list Z;
  lanes : list Lane.t;
  dParam : drawParams.t;
  tempFile : option string;
  filename : option string;
  dwg : svgwrite.Drawing;
  maxNBases : Z;
  minNBases : Z;
  ladder : Lane.t
}.

Definition default_ladder : list Z :=
  [25; 50; 75; 100; 125; 150; 200; 250; 300; 400; 500; 600; 700; 800; 900;
   1000; 1250; 1500; 1750; 2000].

Definition default_boldLadder : list Z := [50; 100; 200; 500; 1000; 1500].

(** Lines 163-164: the largest and the smallest band length of the data
    lanes, as [(minNBases, maxNBases)]. *)
Definition data_range (lanes : list Lane.t) : result (Z * Z) :=
  maxs ← map_result (fun lane => Py.max_Z (map Band.numBases (Lane.bands lane))) lanes;
  maxN ← Py.max_Z maxs;
  mins ← map_result (fun lane => Py.min_Z (map Band.numBases (Lane.bands lane))) lanes;
  minN ← Py.min_Z mins;
  Ok (minN, maxN).

(** The state of the loop of lines 170-181. *)
Record scan : Type := mkScan {
  bands : list Band.t;
  newMin : Z;
  newMax : Z
}.

(** Lines 171 and 177: the band of the marker [length]. *)
Definition marker_band (boldLadder : list Z) (length : Z) : Band.t :=
  let intensity := if Py.contains length boldLadder then 1.0%R else 0.5%R in
  {| Band.numBases := length;
     Band.annot := Py.rjust (Py.str length) 3 " ";
     Band.link := None;
     Band.reads := intensity |}.

(** One turn of that loop, for the marker [length] at index [ind]. The
    subscripts [ind1] and [ind2] are clamped into the list, so
    [ladderBands[ind1]] and [ladderBands[ind2]] cannot raise. *)
Definition scan_marker (ladderBands boldLadder : list Z) (minNBases maxNBases : Z)
    (st : scan) (item : nat * Z) : scan :=
  let '(ind, length) := item in
  let ind1 := Nat.max 0 (ind - 1) in
  let ind2 := Nat.min (List.length ladderBands - 1) (ind + 1) in
  let below := (nth ind1 ladderBands 0 <? maxNBases) && (minNBases <? length) in
  let above := (minNBases <? nth ind2 ladderBands 0) && (length <? maxNBases) in
  if (length <? maxNBases) && (minNBases <? length) || below || above then
    let bands := bands st ++ [marker_band boldLadder length] in
    let newMin :=
      if below && (nth ind1 ladderBands 0 <? newMin st)
      then nth ind1 ladderBands 0 else newMin st in
    let newMax :=
      if above && (newMax st <? nth ind2 ladderBands 0)
      then nth ind2 ladderBands 0 else newMax st in
    {| bands := bands; newMin := newMin; newMax := newMax |}
  else st.

(** [enumerate(xs, start)] and [enumerate(xs)]. *)
Definition enumerate_from {A : Type} (start : nat) (xs : list A) : list (nat * A) :=
  combine (seq start (List.length xs)) xs.

Definition enumerate {A : Type} (xs : list A) : list (nat * A) :=
  enumerate_from 0 xs.

(** [Gel.__makeLadder]: the ladder's bands, with the values the method
    leaves in [self.minNBases] and [self.maxNBases]. *)
Definition makeLadder (lanes : list Lane.t) (ladderBands boldLadder : list Z)
  : result (list Band.t * Z * Z) :=
  '(minNBases, maxNBases) ← data_range lanes;
  let st :=
    fold_left (scan_marker ladderBands boldLadder minNBases maxNBases)
              (enumerate ladderBands)
              {| bands := []; newMin := 1000; newMax := 0 |} in
  let minNBases :=
    if negb (newMin st =? 0) && (newMin st <? minNBases)
    then newMin st else minNBases in
  let maxNBases :=
    if negb (newMax st =? 0) && (maxNBases <? newMax st)
    then newMax st else maxNBases in
  Ok (bands st, minNBases, maxNBases).

(** [Gel.__init__]. [tmp] is the name [tempfile.NamedTemporaryFile] picks
    when no [filename] is given. *)
Definition init (tmp : string) (lanes : list Lane.t) (dParam : option drawParams.t)
    (ladder boldLadder : list Z) (filename : option string) : result t :=
  let dParam := drawParams.or_default dParam in
  let '(filename, tempFile, target) :=
    if Py.truthy filename
    then (filename, None, match filename with Some f => f | None => tmp end)
    else (None, Some tmp, tmp) in
  let dwg :=
    svgwrite.add_stylesheet
      {| svgwrite.filename := target; svgwrite.profile := "tiny";
         svgwrite.stylesheets := []; svgwrite.elements := [] |}
      "hover.css" "label" in
  '(bands, minNBases, maxNBases) ← makeLadder lanes ladder boldLadder;
  Ok {| boldLadder := boldLadder; lanes := lanes; dParam := dParam;
        tempFile := tempFile; filename := filename; dwg := dwg;
        maxNBases := maxNBases; minNBases := minNBases;
        ladder := Lane.init "Ladder" bands (Some dParam) true |}.

(** What a call of [draw] hands out: the saved file, or the string of
    [tostring], each standing for the document it serializes. *)
Inductive output : Type :=
| Saved (file : string) (doc : svgwrite.Drawing)
| Returned (doc : svgwrite.Drawing).

Definition document (o : output) : svgwrite.Drawing :=
  match o with
  | Saved _ doc => doc
  | Returned doc => doc
  end.

(** Line 191. *)
Definition gelWidth (self : t) : Z :=
  drawParams.margin (dParam self) * 2
  + (Z.of_nat (List.length (lanes self)) - 1) * drawParams.gapWidth (dParam self)
  + Z.of_nat (List.length (lanes self)) * drawParams.laneWidth (dParam self).

(** Line 195: where data lane [index] starts. *)
Definition lane_x (self : t) (index : nat) : Z :=
  drawParams.margin (dParam self)
  + (Z.of_nat index + 1)
    * (drawParams.gapWidth (dParam self) + drawParams.laneWidth (dParam self)).

(** [Gel.draw]: the object after the call (its drawing has grown) and
    what the call hands out. *)
Definition draw (self : t) : result (t * output) :=
  let p := dParam self in
  let dwg :=
    svgwrite.add (dwg self)
      (svgwrite.Rect (0, 0)
         (gelWidth self, drawParams.gelHeight p + 2 * drawParams.margin p)
         "black" None) in
  dwg ← Lane.draw (ladder self) dwg (drawParams.margin p)
          (minNBases self) (maxNBases self) (Some p);
  dwg ← for_each
          (fun dwg '(index, lane) =>
             Lane.draw lane dwg (lane_x self index)
               (minNBases self) (maxNBases self) (Some p))
          dwg (enumerate (lanes self));
  let self' :=
    {| boldLadder := boldLadder self; lanes := lanes self; dParam := dParam self;
       tempFile := tempFile self; filename := filename self; dwg := dwg;
       maxNBases := maxNBases self; minNBases := minNBases self;
       ladder := ladder self |} in
  if Py.truthy (filename self)
  then Ok (self', Saved (default EmptyString (filename self)) dwg)
  else Ok (self', Returned dwg).

End Gel.

(** ** Objects and aliasing

    The classes above are modelled on values. A Python list is an object:
    the caller of [Lane(name, bands)] keeps a reference to [bands] and can
    change that list afterwards. This layer keeps the lists in a store and
    gives [list(bands)] and [list(lanes)] their own, fresh, list objects. *)

Module Obj.

Definition loc : Type := positive.

(** A [Lane] object; [bands] refers to a list of bands in the store. *)
Record Lane : Type := mkLane {
  name : string;
  bands : loc;
  isLadder : bool;
  gelHeight : Z;
  dilationFactor : Z
}.

Record store : Type := mkStore {
  band_lists : gmap loc (list Band.t);
  lane_lists : gmap loc (list Lane)
}.

(** A [Gel] object; [lanes] refers to a list of [Lane] objects. *)
Record Gel : Type := mkGel {
  boldLadder : list Z;
  lanes : loc;
  dParam : drawParams.t;
  tempFile : option string;
  filename : option string;
  dwg : svgwrite.Drawing;
  maxNBases : Z;
  minNBases : Z;
  ladder : Lane
}.

(** Any change made in place to the list object at [r] (append, insert,
    del, item assignment, sort, clear) leaves some list [bs] there. *)
Definition set_bands (σ : store) (r : loc) (bs : list Band.t) : store :=
  {| band_lists := <[r := bs]> (band_lists σ); lane_lists := lane_lists σ |}.

Definition set_lanes (σ : store) (r : loc) (ls : list Lane) : store :=
  {| band_lists := band_lists σ; lane_lists := <[r := ls]> (lane_lists σ) |}.

(** The lane an object stands for in a store. *)
Definition lane_value (σ : store) (o : Lane) : option Lane.t :=
  bs ← band_lists σ !! bands o;
  Some {| Lane.name := name o; Lane.bands := bs; Lane.isLadder := isLadder o;
          Lane.gelHeight := gelHeight o;
          Lane.dilationFactor := dilationFactor o |}.

(** [Lane.__init__] on objects: [self.bands = list(bands)] is a new list
    object with the items [bands] holds now. *)
Definition Lane_init (σ : store) (name : string) (bands : loc)
    (dParam : option drawParams.t) (isLadder : bool) : option (store * Lane) :=
  bs ← band_lists σ !! bands;
  let self_bands := fresh (dom (band_lists σ)) in
  let v := Lane.init name bs dParam isLadder in
  Some (set_bands σ self_bands (Lane.bands v),
        {| name := Lane.name v; bands := self_bands; isLadder := Lane.isLadder v;
           gelHeight := Lane.gelHeight v;
           dilationFactor := Lane.dilationFactor v |}).

Definition Lane_draw (σ : store) (self : Lane) (dwg : svgwrite.Drawing)
    (xCoord minBandSize maxBandSize : Z) (dParam : option drawParams.t)
  : option (result svgwrite.Drawing) :=
  v ← lane_value σ self;
  Some (Lane.draw v dwg xCoord minBandSize maxBandSize dParam).

(** The Gel an object stands for in a store. *)
Definition gel_value (σ : store) (g : Gel) : option Gel.t :=
  ls ← lane_lists σ !! lanes g;
  vs ← mapM (lane_value σ) ls;
  lad ← lane_value σ (ladder g);
  Some {| Gel.boldLadder := boldLadder g; Gel.lanes := vs; Gel.dParam := dParam g;
          Gel.tempFile := tempFile g; Gel.filename := filename g;
          Gel.dwg := dwg g; Gel.maxNBases := maxNBases g;
          Gel.minNBases := minNBases g; Gel.ladder := lad |}.

(** [Gel.__init__] on objects: [self.lanes = list(lanes)] is a new list
    object; the list [bands] that [__makeLadder] returns is one more, and
    the ladder lane copies it in turn. *)
Definition Gel_init (σ : store) (tmp : string) (lanes : loc)
    (dParam : option drawParams.t) (ladder boldLadder : list Z)
    (filename : option string) : option (result (store * Gel)) :=
  ls ← lane_lists σ !! lanes;
  vs ← mapM (lane_value σ) ls;
  let self_lanes := fresh (dom (lane_lists σ)) in
  let σ := set_lanes σ self_lanes ls in
  match Gel.init tmp vs dParam ladder boldLadder filename with
  | Raise e => Some (Raise e)
  | Ok v =>
      let made := fresh (dom (band_lists σ)) in
      let σ := set_bands σ made (Lane.bands (Gel.ladder v)) in
      '(σ, lad) ← Lane_init σ "Ladder" made (Some (Gel.dParam v)) true;
      Some (Ok (σ, {| boldLadder := Gel.boldLadder v; lanes := self_lanes;
                      dParam := Gel.dParam v; tempFile := Gel.tempFile v;
                      filename := Gel.filename v; dwg := Gel.dwg v;
                      maxNBases := Gel.maxNBases v; minNBases := Gel.minNBases v;
                      ladder := lad |}))
  end.

(** [Gel.draw] on objects: what the call hands out. *)
Definition Gel_draw (σ : store) (self : Gel) : option (result Gel.output) :=
  v ← gel_value σ self;
  Some (fmap snd (Gel.draw v)).

End Obj.

(** ** Line 81 once more: over the reals for any factor, and in binary64

    [Lane.distance] above reads [float(self.dilationFactor) *
    (4 - math.log10(numBases))] over the reals, for the integer factor a
    [Lane.t] holds. [Exact.distance] is that reading for a factor that is
    any real number. [B64.distance] is the line as the program computes it,
    in binary64: [float] rounds an [int] to the nearest double, ties to
    even, and raises when there is none; [math.log10] of an [int] is the C
    library's [log10] of that double, and for an [int] beyond the doubles
    [log10 x + log10 2.0 * e] for the fraction [x] and exponent [e] of the
    [int]. Nothing is assumed of the C library's [log10]: it is a
    parameter. *)

Module Exact.

Definition distance (dilationFactor : R) (numBases : Z) : result R :=
  l ← Py.log10 numBases;
  Ok (dilationFactor * (4 - l))%R.

End Exact.

Module B64.

(** A Python number: an [int] or a [float]. *)
Inductive number : Type :=
| Int (n : Z)
| Float (x : PrimFloat.float).

Inductive error : Type :=
| ValueError       (* ValueError: math domain error *)
| OverflowError.   (* OverflowError: int too large to convert to float *)

(** The double nearest to [n], ties to even; infinite when [n] is beyond
    the doubles. *)
Definition round_int (n : Z) : PrimFloat.float :=
  FloatOps.SF2Prim
    (SpecFloat.binary_normalize FloatOps.prec FloatOps.emax n 0 false).

(** [float(n)] for an [int]; [None] stands for the OverflowError. *)
Definition of_int (n : Z) : option PrimFloat.float :=
  let x := round_int n in
  if PrimFloat.is_infinity x then None else Some x.

(** [float(x)] for a number. *)
Definition float_ (x : number) : error + PrimFloat.float :=
  match x with
  | Int n =>
      match of_int n with
      | Some y => inr y
      | None => inl OverflowError
      end
  | Float y => inr y
  end.

(** The fraction in [0.5, 1) and the exponent of a positive [int], the
    fraction rounded to 53 bits, ties to even. *)
Definition frexp_int (n : Z) : PrimFloat.float * Z :=
  match SpecFloat.binary_normalize FloatOps.prec (Z.log2 n + 3) n 0 false with
  | SpecFloat.S754_finite _ m e =>
      (FloatOps.SF2Prim (SpecFloat.S754_finite false m (- FloatOps.prec)),
       e + FloatOps.prec)
  | _ => (PrimFloat.zero, 0)
  end.

Section libm.

Variable log10 : PrimFloat.float -> PrimFloat.float.

(** [math.log10(n)] for an [int]. *)
Definition math_log10 (n : Z) : error + PrimFloat.float :=
  if n <=? 0 then inl ValueError
  else
    match of_int n with
    | Some x => inr (log10 x)
    | None =>
        let '(x, e) := frexp_int n in
        inr (PrimFloat.add (log10 x)
                           (PrimFloat.mul (log10 (round_int 2)) (round_int e)))
    end.

(** [Lane.__distance], line 81. *)
Definition distance (dilationFactor : number) (numBases : Z)
  : error + PrimFloat.float :=
  match float_ dilationFactor with
  | inl e => inl e
  | inr d =>
      match math_log10 numBases with
      | inl e => inl e
      | inr l => inr (PrimFloat.mul d (PrimFloat.sub (round_int 4) l))
      end
  end.

End libm.

End B64.

(** * Properties *)

(** ** Python's [max] and [min] *)

Lemma fold_max_Z_spec (xs : list Z) (x : Z) :
  let m := fold_left (fun m y => if m <? y then y else m) xs x in
  (m = x \/ In m xs) /\ x <= m /\ Forall (fun y => y <= m) xs.
Proof.
  revert x. induction xs as [|y ys IH]; intros x; simpl.
  - split; [by left | split; [lia | constructor]].
  - destruct (IH (if x <? y then y else x)) as (Hin & Hle & Hall).
    destruct (Z.ltb_spec x y) as [Hxy|Hxy].
    + split; [destruct Hin; auto | split; [lia |]]. constructor; [done | done].
    + split; [destruct Hin; auto | split; [done |]]. constructor; [lia | done].
Qed.

Lemma fold_min_Z_spec (xs : list Z) (x : Z) :
  let m := fold_left (fun m y => if y <? m then y else m) xs x in
  (m = x \/ In m xs) /\ m <= x /\ Forall (fun y => m <= y) xs.
Proof.
  revert x. induction xs as [|y ys IH]; intros x; simpl.
  - split; [by left | split; [lia | constructor]].
  - destruct (IH (if y <? x then y else x)) as (Hin & Hle & Hall).
    destruct (Z.ltb_spec y x) as [Hxy|Hxy].
    + split; [destruct Hin; auto | split; [lia |]]. constructor; [done | done].
    + split; [destruct Hin; auto | split; [done |]]. constructor; [lia | done].
Qed.

Lemma max_Z_Ok (xs : list Z) (m : Z) :
  Py.max_Z xs = Ok m -> In m xs /\ Forall (fun y => y <= m) xs.
Proof.
  destruct xs as [|x xs]; simpl; [done |]. intros [= <-].
  destruct (fold_max_Z_spec xs x) as (Hin & Hle & Hall).
  split; [destruct Hin as [->|]; auto | constructor; done].
Qed.

Lemma min_Z_Ok (xs : list Z) (m : Z) :
  Py.min_Z xs = Ok m -> In m xs /\ Forall (fun y => m <= y) xs.
Proof.
  destruct xs as [|x xs]; simpl; [done |]. intros [= <-].
  destruct (fold_min_Z_spec xs x) as (Hin & Hle & Hall).
  split; [destruct Hin as [->|]; auto | constructor; done].
Qed.

Lemma max_Z_Raise (xs : list Z) (e : exn) :
  Py.max_Z xs = Raise e -> xs = [] /\ e = ValueError_empty "max".
Proof. destruct xs; simpl; [intros [= <-]; done | done]. Qed.

Lemma min_Z_Raise (xs : list Z) (e : exn) :
  Py.min_Z xs = Raise e -> xs = [] /\ e = ValueError_empty "min".
Proof. destruct xs; simpl; [intros [= <-]; done | done]. Qed.

(** ** The result monad *)

Lemma bind_Ok {A B : Type} (c : result A) (k : A -> result B) (b : B) :
  (c ≫= k) = Ok b -> exists a, c = Ok a /\ k a = Ok b.
Proof. destruct c as [a|e]; simpl; [eauto | done]. Qed.

Lemma map_result_Ok {A B : Type} (f : A -> result B) (xs : list A) (ys : list B) :
  map_result f xs = Ok ys -> Forall2 (fun x y => f x = Ok y) xs ys.
Proof.
  revert ys. induction xs as [|x xs IH]; simpl; intros ys H.
  - injection H as <-. constructor.
  - apply bind_Ok in H as (y & Hy & H). apply bind_Ok in H as (ys' & Hys & H).
    injection H as <-. constructor; auto.
Qed.

Lemma map_result_Raise {A B : Type} (f : A -> result B) (xs : list A) (e : exn) :
  map_result f xs = Raise e -> exists x, In x xs /\ f x = Raise e.
Proof.
  induction xs as [|x xs IH]; simpl; [done |].
  destruct (f x) as [y|e'] eqn:Hx; simpl.
  - destruct (map_result f xs) as [ys|e'']; simpl; [done |].
    intros [= <-]. destruct IH as (x' & Hin & Hx'); eauto.
  - intros [= <-]. eauto.
Qed.

Lemma map_result_total {A B : Type} (f : A -> result B) (xs : list A) :
  Forall (fun x => exists y, f x = Ok y) xs -> exists ys, map_result f xs = Ok ys.
Proof.
  induction 1 as [|x xs (y & Hy) _ (ys & Hys)]; simpl; [eauto |].
  rewrite Hy, Hys. simpl. eauto.
Qed.

(** ** The observed range of the data lanes (lines 163-164) *)

Lemma data_range_Ok (lanes : list Lane.t) (lo hi : Z) :
  Gel.data_range lanes = Ok (lo, hi) ->
  (forall lane b, In lane lanes -> In b (Lane.bands lane) ->
                  lo <= Band.numBases b <= hi)
  /\ (exists lane b, In lane lanes /\ In b (Lane.bands lane) /\ Band.numBases b = lo)
  /\ (exists lane b, In lane lanes /\ In b (Lane.bands lane) /\ Band.numBases b = hi).
Proof.
  unfold Gel.data_range. intros H.
  apply bind_Ok in H as (maxs & Hmaxs & H). apply bind_Ok in H as (maxN & HmaxN & H).
  apply bind_Ok in H as (mins & Hmins & H). apply bind_Ok in H as (minN & HminN & H).
  injection H as -> ->.
  apply map_result_Ok in Hmaxs, Hmins.
  apply max_Z_Ok in HmaxN as (HhiIn & HhiAll). apply min_Z_Ok in HminN as (HloIn & HloAll).
  rewrite List.Forall_forall in HhiAll, HloAll.
  split; [| split].
  - intros lane b Hlane Hb.
    apply list_elem_of_In in Hlane.
    apply list_elem_of_lookup in Hlane as (i & Hi).
    destruct (Forall2_lookup_l _ _ _ i lane Hmaxs Hi) as (mx & Hmx & Hfmx).
    destruct (Forall2_lookup_l _ _ _ i lane Hmins Hi) as (mn & Hmn & Hfmn).
    apply max_Z_Ok in Hfmx as (_ & Hbmx). apply min_Z_Ok in Hfmn as (_ & Hbmn).
    rewrite List.Forall_forall in Hbmx, Hbmn.
    pose proof (Hbmx _ (in_map Band.numBases _ _ Hb)).
    pose proof (Hbmn _ (in_map Band.numBases _ _ Hb)).
    assert (In mx maxs) as Hmx' by (apply list_elem_of_In, list_elem_of_lookup; eauto).
    assert (In mn mins) as Hmn' by (apply list_elem_of_In, list_elem_of_lookup; eauto).
    apply HhiAll in Hmx'. apply HloAll in Hmn'. lia.
  - apply list_elem_of_In, list_elem_of_lookup in HloIn as (i & Hi).
    destruct (Forall2_lookup_r _ _ _ i lo Hmins Hi) as (lane & Hlane & Hf).
    apply min_Z_Ok in Hf as (Hin & _). apply in_map_iff in Hin as (b & Hb & Hbin).
    exists lane, b. split; [| done].
    apply list_elem_of_In, list_elem_of_lookup; eauto.
  - apply list_elem_of_In, list_elem_of_lookup in HhiIn as (i & Hi).
    destruct (Forall2_lookup_r _ _ _ i hi Hmaxs Hi) as (lane & Hlane & Hf).
    apply max_Z_Ok in Hf as (Hin & _). apply in_map_iff in Hin as (b & Hb & Hbin).
    exists lane, b. split; [| done].
    apply list_elem_of_In, list_elem_of_lookup; eauto.
Qed.

Lemma data_range_empty (lanes : list Lane.t) :
  lanes = [] \/ (exists lane, In lane lanes /\ Lane.bands lane = []) ->
  Gel.data_range lanes = Raise (ValueError_empty "max").
Proof.
  intros H. unfold Gel.data_range.
  destruct (map_result (fun lane => Py.max_Z _) lanes) as [maxs|e] eqn:Hmaxs; simpl.
  - destruct H as [->|(lane & Hin & Hnil)].
    + simpl in Hmaxs. injection Hmaxs as <-. done.
    + apply map_result_Ok in Hmaxs.
      apply list_elem_of_In, list_elem_of_lookup in Hin as (i & Hi).
      destruct (Forall2_lookup_l _ _ _ i lane Hmaxs Hi) as (mx & _ & Hf).
      rewrite Hnil in Hf. done.
  - apply map_result_Raise in Hmaxs as (lane & _ & Hf).
    apply max_Z_Raise in Hf as (_ & ->). done.
Qed.

Lemma data_range_Raise (lanes : list Lane.t) (e : exn) :
  Gel.data_range lanes = Raise e ->
  lanes = [] \/ (exists lane, In lane lanes /\ Lane.bands lane = []).
Proof.
  unfold Gel.data_range.
  destruct (map_result (fun lane => Py.max_Z _) lanes) as [maxs|e1] eqn:Hmaxs; simpl.
  - destruct (Py.max_Z maxs) as [maxN|e2] eqn:HmaxN; simpl.
    + destruct (map_result (fun lane => Py.min_Z _) lanes) as [mins|e3] eqn:Hmins; simpl.
      * destruct (Py.min_Z mins) as [minN|e4] eqn:HminN; simpl; [done |].
        apply min_Z_Raise in HminN as (-> & _).
        apply map_result_Ok in Hmins. inversion Hmins. auto.
      * intros _. apply map_result_Raise in Hmins as (lane & Hin & Hf).
        apply min_Z_Raise in Hf as (Hnil & _).
        destruct (Lane.bands lane) eqn:Hb; [eauto | done].
    + intros _. apply max_Z_Raise in HmaxN as (-> & _).
      apply map_result_Ok in Hmaxs. inversion Hmaxs. auto.
  - intros _. apply map_result_Raise in Hmaxs as (lane & Hin & Hf).
    apply max_Z_Raise in Hf as (Hnil & _).
    destruct (Lane.bands lane) eqn:Hb; [eauto | done].
Qed.

Lemma makeLadder_Ok (lanes : list Lane.t) (ladderBands boldLadder : list Z)
    (bands : list Band.t) (minN maxN : Z) :
  Gel.makeLadder lanes ladderBands boldLadder = Ok (bands, minN, maxN) ->
  exists lo hi, Gel.data_range lanes = Ok (lo, hi) /\ minN <= lo /\ hi <= maxN.
Proof.
  unfold Gel.makeLadder. intros H. apply bind_Ok in H as ([lo hi] & Hrange & H).
  exists lo, hi. split; [done |]. injection H as _ <- <-.
  split.
  - destruct (negb _ && (_ <? lo)) eqn:Hc; [| lia].
    apply andb_prop in Hc as [_ Hc]. apply Z.ltb_lt in Hc. lia.
  - destruct (negb _ && (hi <? _)) eqn:Hc; [| lia].
    apply andb_prop in Hc as [_ Hc]. apply Z.ltb_lt in Hc. lia.
Qed.

Lemma init_Ok (tmp : string) (lanes : list Lane.t) (dParam : option drawParams.t)
    (ladder boldLadder : list Z) (filename : option string) (g : Gel.t) :
  Gel.init tmp lanes dParam ladder boldLadder filename = Ok g ->
  exists bands,
    Gel.makeLadder lanes ladder boldLadder
      = Ok (bands, Gel.minNBases g, Gel.maxNBases g)
    /\ Lane.bands (Gel.ladder g) = bands /\ Gel.lanes g = lanes.
Proof.
  unfold Gel.init. destruct (Py.truthy filename); simpl; intros H.
  all: apply bind_Ok in H as ([[bands mn] mx] & Hm & H); injection H as <-;
    exists bands; done.
Qed.

(** C8. Constructing a Gel from no lanes, or from lanes one of which has no
    bands, raises at line 163, where the range of the data is computed:
    [max] is handed an empty sequence (the spec's EmptyInput). *)
Theorem Gel_init_EmptyInput (tmp : string) (lanes : list Lane.t)
    (dParam : option drawParams.t) (ladder boldLadder : list Z)
    (filename : option string) :
  lanes = [] \/ (exists lane, In lane lanes /\ Lane.bands lane = []) ->
  Gel.data_range lanes = Raise (ValueError_empty "max")
  /\ Gel.init tmp lanes dParam ladder boldLadder filename
     = Raise (ValueError_empty "max").
Proof.
  intros H. apply data_range_empty in H. split; [done |].
  unfold Gel.init, Gel.makeLadder. rewrite H.
  destruct (Py.truthy filename); done.
Qed.

Lemma Gel_init_EmptyInput_witness :
  Gel.data_range
    [Lane.init "1" [Band.mk 100 "a" None 10%R] None false; Lane.init "2" [] None false]
  = Raise (ValueError_empty "max")
  /\ Gel.init "tmp.svg"
       [Lane.init "1" [Band.mk 100 "a" None 10%R] None false; Lane.init "2" [] None false]
       None Gel.default_ladder Gel.default_boldLadder None
     = Raise (ValueError_empty "max").
Proof.
  apply Gel_init_EmptyInput. right.
  exists (Lane.init "2" [] None false). split; [simpl; auto | reflexivity].
Defined.

(** C10. The ladder never narrows the range of the data: in a Gel that was
    constructed, [minNBases] is at most the smallest band length of the
    data lanes and [maxNBases] is at least the largest. *)
Theorem Gel_range_never_narrows (tmp : string) (lanes : list Lane.t)
    (dParam : option drawParams.t) (ladder boldLadder : list Z)
    (filename : option string) (g : Gel.t) :
  Gel.init tmp lanes dParam ladder boldLadder filename = Ok g ->
  exists lo hi,
    Gel.data_range lanes = Ok (lo, hi)
    /\ (forall lane b, In lane lanes -> In b (Lane.bands lane) ->
                       lo <= Band.numBases b <= hi)
    /\ (exists lane b, In lane lanes /\ In b (Lane.bands lane) /\ Band.numBases b = lo)
    /\ (exists lane b, In lane lanes /\ In b (Lane.bands lane) /\ Band.numBases b = hi)
    /\ Gel.minNBases g <= lo
    /\ hi <= Gel.maxNBases g.
Proof.
  intros H. apply init_Ok in H as (bands & Hm & _).
  apply makeLadder_Ok in Hm as (lo & hi & Hrange & Hlo & Hhi).
  exists lo, hi. destruct (data_range_Ok _ _ _ Hrange) as (Hall & Hmin & Hmax).
  done.
Qed.

Lemma Gel_range_never_narrows_witness :
  exists g,
    Gel.init "tmp.svg"
      [Lane.init "1" [Band.mk 110 "a" None 10%R; Band.mk 140 "b" None 5%R] None false]
      None Gel.default_ladder Gel.default_boldLadder None = Ok g
    /\ Gel.minNBases g = 100 /\ Gel.maxNBases g = 150
    /\ exists lo hi,
      Gel.data_range
        [Lane.init "1" [Band.mk 110 "a" None 10%R; Band.mk 140 "b" None 5%R] None false]
      = Ok (lo, hi)
      /\ (forall lane b,
            In lane [Lane.init "1" [Band.mk 110 "a" None 10%R; Band.mk 140 "b" None 5%R]
                       None false] ->
            In b (Lane.bands lane) -> lo <= Band.numBases b <= hi)
      /\ (exists lane b,
            In lane [Lane.init "1" [Band.mk 110 "a" None 10%R; Band.mk 140 "b" None 5%R]
                       None false]
            /\ In b (Lane.bands lane) /\ Band.numBases b = lo)
      /\ (exists lane b,
            In lane [Lane.init "1" [Band.mk 110 "a" None 10%R; Band.mk 140 "b" None 5%R]
                       None false]
            /\ In b (Lane.bands lane) /\ Band.numBases b = hi)
      /\ Gel.minNBases g <= lo
      /\ hi <= Gel.maxNBases g.
Proof.
  eexists. split; [reflexivity |]. split; [reflexivity |]. split; [reflexivity |].
  apply (Gel_range_never_narrows "tmp.svg" _ None Gel.default_ladder
           Gel.default_boldLadder None).
  reflexivity.
Defined.

(** ** The scan of the canonical markers (lines 170-181) *)

Lemma enumerate_from_app {A : Type} (k : nat) (xs ys : list A) :
  Gel.enumerate_from k (xs ++ ys)
  = Gel.enumerate_from k xs ++ Gel.enumerate_from (k + List.length xs) ys.
Proof.
  unfold Gel.enumerate_from. revert k. induction xs as [|x xs IH]; intros k; simpl.
  - by rewrite Nat.add_0_r.
  - f_equal. rewrite IH. by rewrite Nat.add_succ_r.
Qed.

Lemma In_enumerate_from {A : Type} (d : A) (k : nat) (xs : list A) (i : nat) (x : A) :
  In (i, x) (Gel.enumerate_from k xs) ->
  (k <= i < k + List.length xs)%nat /\ nth (i - k) xs d = x.
Proof.
  unfold Gel.enumerate_from. revert k. induction xs as [|y ys IH]; intros k; simpl.
  - done.
  - intros [[= <- <-]|Hin].
    + split; [lia |]. by rewrite Nat.sub_diag.
    + apply IH in Hin as (Hi & Hx). split; [lia |].
      replace (i - k)%nat with (S (i - S k)) by lia. done.
Qed.

Lemma fold_left_fixed {A B : Type} (f : A -> B -> A) (items : list B) (st : A) :
  (forall it, In it items -> f st it = st) -> fold_left f items st = st.
Proof.
  induction items as [|it items IH]; simpl; [done |].
  intros H. rewrite (H it) by auto. apply IH. auto.
Qed.

Lemma scan_marker_outside (ladderBands boldLadder : list Z) (minN maxN : Z)
    (st : Gel.scan) (ind : nat) (length : Z) :
  (length <= minN \/ maxN <= length) ->
  (maxN <= nth (Nat.max 0 (ind - 1)) ladderBands 0 \/ length <= minN) ->
  (nth (Nat.min (List.length ladderBands - 1) (ind + 1)) ladderBands 0 <= minN
   \/ maxN <= length) ->
  Gel.scan_marker ladderBands boldLadder minN maxN st (ind, length) = st.
Proof.
  intros H1 H2 H3. unfold Gel.scan_marker.
  replace ((length <? maxN) && (minN <? length)) with false; cycle 1.
  { symmetry. apply andb_false_iff. rewrite !Z.ltb_ge. tauto. }
  replace ((nth (Nat.max 0 (ind - 1)) ladderBands 0 <? maxN) && (minN <? length))
    with false; cycle 1.
  { symmetry. apply andb_false_iff. rewrite !Z.ltb_ge. tauto. }
  replace ((minN <? nth (Nat.min (List.length ladderBands - 1) (ind + 1)) ladderBands 0)
           && (length <? maxN)) with false; cycle 1.
  { symmetry. apply andb_false_iff. rewrite !Z.ltb_ge. tauto. }
  done.
Qed.

Lemma StronglySorted_split (pre rest : list Z) (x : Z) :
  StronglySorted Z.le (pre ++ x :: rest) ->
  List.Forall (fun y => y <= x) pre /\ List.Forall (fun y => x <= y) rest.
Proof.
  induction pre as [|y pre IH]; simpl; intros H.
  - apply StronglySorted_inv in H as [_ H]. split; [constructor | done].
  - apply StronglySorted_inv in H as [Hs Hall]. destruct (IH Hs) as [Hpre Hrest].
    split; [| done]. constructor; [| done].
    rewrite List.Forall_forall in Hall. apply Hall, in_elt.
Qed.

Section ladder_100_125_150.

Variables (pre post boldLadder : list Z).
Hypothesis Hpre : List.Forall (fun y => y <= 100) pre.
Hypothesis Hpost : List.Forall (fun y => 150 <= y) post.

Let markers : list Z := pre ++ [100; 125; 150] ++ post.
Let p : nat := List.length pre.

Lemma markers_length : List.length markers = (p + 3 + List.length post)%nat.
Proof using Type. unfold markers, p. rewrite !length_app. simpl. lia. Qed.

Lemma markers_nth_mid (k : nat) :
  (k < 3)%nat -> nth (p + k) markers 0 = nth k [100; 125; 150] 0.
Proof using Type.
  intros Hk. unfold markers, p. rewrite app_nth2_plus. by rewrite app_nth1.
Qed.

Lemma markers_nth_low (j : nat) : (j <= p)%nat -> nth j markers 0 <= 100.
Proof using Hpre.
  intros Hj. destruct (decide (j = p)) as [->|Hne].
  - replace p with (p + 0)%nat by lia. rewrite markers_nth_mid by lia. simpl. lia.
  - unfold markers. rewrite app_nth1 by (fold p; lia).
    rewrite List.Forall_forall in Hpre. apply Hpre, nth_In. fold p. lia.
Qed.

Lemma markers_nth_high (j : nat) :
  (p + 2 <= j < List.length markers)%nat -> 150 <= nth j markers 0.
Proof using Hpost.
  intros [Hj Hlen]. rewrite markers_length in Hlen.
  destruct (decide (j = p + 2)%nat) as [->|Hne].
  - rewrite markers_nth_mid by lia. simpl. lia.
  - unfold markers. replace j with (p + (3 + (j - p - 3)))%nat at 1 by lia.
    unfold p at 1. rewrite app_nth2_plus. rewrite app_nth2 by (simpl; lia).
    simpl List.length. replace (3 + (j - p - 3) - 3)%nat with (j - p - 3)%nat by lia.
    rewrite List.Forall_forall in Hpost. apply Hpost, nth_In. lia.
Qed.

Lemma scan_marker_100 (st : Gel.scan) :
  Gel.scan_marker markers boldLadder 110 140 st (p, 100)
  = {| Gel.bands := Gel.bands st ++ [Gel.marker_band boldLadder 100];
       Gel.newMin := Gel.newMin st;
       Gel.newMax := if Gel.newMax st <? 125 then 125 else Gel.newMax st |}.
Proof using Hpre.
  unfold Gel.scan_marker.
  replace (Nat.min (List.length markers - 1) (p + 1)) with (p + 1)%nat
    by (rewrite markers_length; lia).
  rewrite markers_nth_mid by lia.
  change (110 <? 100) with false. rewrite !andb_false_r. done.
Qed.

Lemma scan_marker_125 (st : Gel.scan) :
  Gel.scan_marker markers boldLadder 110 140 st (S p, 125)
  = {| Gel.bands := Gel.bands st ++ [Gel.marker_band boldLadder 125];
       Gel.newMin := if 100 <? Gel.newMin st then 100 else Gel.newMin st;
       Gel.newMax := if Gel.newMax st <? 150 then 150 else Gel.newMax st |}.
Proof using Type.
  unfold Gel.scan_marker.
  replace (Nat.min (List.length markers - 1) (S p + 1)) with (p + 2)%nat
    by (rewrite markers_length; lia).
  replace (Nat.max 0 (S p - 1)) with (p + 0)%nat by lia.
  rewrite !markers_nth_mid by lia. done.
Qed.

Lemma scan_marker_150 (st : Gel.scan) :
  Gel.scan_marker markers boldLadder 110 140 st (S (S p), 150)
  = {| Gel.bands := Gel.bands st ++ [Gel.marker_band boldLadder 150];
       Gel.newMin := if 125 <? Gel.newMin st then 125 else Gel.newMin st;
       Gel.newMax := Gel.newMax st |}.
Proof using Type.
  unfold Gel.scan_marker.
  replace (Nat.max 0 (S (S p) - 1)) with (p + 1)%nat by lia.
  rewrite !markers_nth_mid by lia.
  change (150 <? 140) with false. rewrite !andb_false_r. done.
Qed.

Lemma scan_100_125_150 :
  fold_left (Gel.scan_marker markers boldLadder 110 140) (Gel.enumerate markers)
            {| Gel.bands := []; Gel.newMin := 1000; Gel.newMax := 0 |}
  = {| Gel.bands := map (Gel.marker_band boldLadder) [100; 125; 150];
       Gel.newMin := 100; Gel.newMax := 150 |}.
Proof using Hpre Hpost.
  unfold Gel.enumerate. unfold markers at 2.
  rewrite !enumerate_from_app, !fold_left_app. fold markers. fold p.
  rewrite (fold_left_fixed _ (Gel.enumerate_from _ pre)); cycle 1.
  { intros [i x] Hin. apply (In_enumerate_from 0) in Hin as (Hi & Hx).
    fold p in Hi.
    assert (x <= 100) as Hx100.
    { rewrite <- Hx. rewrite List.Forall_forall in Hpre. apply Hpre, nth_In.
      fold p. lia. }
    apply scan_marker_outside; [lia | lia |].
    left. pose proof (markers_nth_low (Nat.min (List.length markers - 1) (i + 1))).
    lia. }
  rewrite (fold_left_fixed _ (Gel.enumerate_from _ post)); cycle 1.
  { intros [i x] Hin. apply (In_enumerate_from 0) in Hin as (Hi & Hx).
    simpl List.length in Hi, Hx.
    assert (150 <= x) as Hx150.
    { rewrite <- Hx. rewrite List.Forall_forall in Hpost. apply Hpost, nth_In. lia. }
    apply scan_marker_outside; [lia | | lia].
    left. pose proof (markers_nth_high (Nat.max 0 (i - 1))) as H.
    rewrite markers_length in H. lia. }
  change (Gel.enumerate_from (0 + p) [100; 125; 150])
    with [(p, 100); (S p, 125); (S (S p), 150)].
  cbn [fold_left].
  rewrite scan_marker_100, scan_marker_125, scan_marker_150. done.
Qed.

End ladder_100_125_150.

(** C2. With the consecutive markers 100, 125, 150 in an ascending
    canonical list and data lanes whose band lengths range over [110, 140],
    the Gel is constructed, its ladder holds exactly the markers 100, 125
    and 150, in this order, and its range is widened to [100, 150]. *)
Theorem Gel_ladder_100_125_150 (tmp : string) (lanes : list Lane.t)
    (dParam : option drawParams.t) (pre post boldLadder : list Z)
    (filename : option string) :
  Gel.data_range lanes = Ok (110, 140) ->
  Sorted Z.le (pre ++ [100; 125; 150] ++ post) ->
  exists g,
    Gel.init tmp lanes dParam (pre ++ [100; 125; 150] ++ post) boldLadder filename
    = Ok g
    /\ Lane.bands (Gel.ladder g) = map (Gel.marker_band boldLadder) [100; 125; 150]
    /\ map Band.numBases (Lane.bands (Gel.ladder g)) = [100; 125; 150]
    /\ Gel.minNBases g = 100
    /\ Gel.maxNBases g = 150.
Proof.
  intros Hrange Hsorted.
  apply Sorted_StronglySorted in Hsorted; [| intros x y z; apply Z.le_trans].
  assert (List.Forall (fun y => y <= 100) pre) as Hpre.
  { apply (StronglySorted_split pre ([125; 150] ++ post) 100 Hsorted). }
  assert (List.Forall (fun y => 150 <= y) post) as Hpost.
  { apply (StronglySorted_split (pre ++ [100; 125]) post 150).
    by rewrite <- app_assoc. }
  unfold Gel.init, Gel.makeLadder. rewrite Hrange. cbn [mbind result_bind].
  rewrite (scan_100_125_150 pre post boldLadder Hpre Hpost).
  destruct (Py.truthy filename); eexists; (split; [reflexivity |]); done.
Qed.

Lemma Gel_ladder_100_125_150_witness :
  exists g,
    Gel.init "tmp.svg"
      [Lane.init "1" [Band.mk 140 "a" None 10%R; Band.mk 110 "b" None 5%R] None false]
      None Gel.default_ladder Gel.default_boldLadder None
    = Ok g
    /\ Lane.bands (Gel.ladder g)
       = map (Gel.marker_band Gel.default_boldLadder) [100; 125; 150]
    /\ map Band.numBases (Lane.bands (Gel.ladder g)) = [100; 125; 150]
    /\ Gel.minNBases g = 100
    /\ Gel.maxNBases g = 150.
Proof.
  apply (Gel_ladder_100_125_150 "tmp.svg" _ None [25; 50; 75]
           [200; 250; 300; 400; 500; 600; 700; 800; 900; 1000; 1250; 1500; 1750; 2000]
           Gel.default_boldLadder None).
  - reflexivity.
  - repeat constructor; lia.
Defined.

(** ** The migration model and the brightness of a band *)

Lemma ln_10_pos : (0 < ln 10)%R.
Proof. rewrite <- ln_1. apply ln_increasing; lra. Qed.

Lemma log10_Ok (n : Z) : 0 < n -> Py.log10 n = Ok (ln (IZR n) / ln 10)%R.
Proof. intros Hn. unfold Py.log10. destruct (Z.leb_spec n 0); [lia | done]. Qed.


Lemma Lane_distance_exact (self : Lane.t) (numBases : Z) :
  Lane.distance self numBases
  = Exact.distance (IZR (Lane.dilationFactor self)) numBases.
Proof. reflexivity. Qed.








Lemma max2_R_ub (a b : R) : (a <= Py.max2_R a b /\ b <= Py.max2_R a b)%R.
Proof. unfold Py.max2_R. destruct (Rlt_dec a b); lra. Qed.

Lemma fold_max2_R_spec (xs : list R) (x : R) :
  let m := fold_left Py.max2_R xs x in
  (x <= m)%R /\ List.Forall (fun y => (y <= m)%R) xs.
Proof.
  revert x. induction xs as [|y ys IH]; intros x; simpl.
  - split; [lra | constructor].
  - destruct (IH (Py.max2_R x y)) as (Hle & Hall).
    destruct (max2_R_ub x y) as [Hx Hy].
    split; [lra | constructor; [lra | done]].
Qed.

Lemma max_R_Ok (xs : list R) (m : R) :
  Py.max_R xs = Ok m -> List.Forall (fun y => (y <= m)%R) xs.
Proof.
  destruct xs as [|x xs]; simpl; [done |]. intros [= <-].
  destruct (fold_max2_R_spec xs x). constructor; done.
Qed.

(** C3. In a data lane whose [reads] are non-negative and whose largest
    [reads], [maxNum], is positive, the brightness computed for every band
    lies in [0.2, 1], and it is 1 for a band whose [reads] equal [maxNum]. *)
Theorem data_lane_intensity_range (self : Lane.t) (maxNum : R) (band : Band.t) :
  Lane.isLadder self = false ->
  List.Forall (fun b => (0 <= Band.reads b)%R) (Lane.bands self) ->
  Py.max_R (map Band.reads (Lane.bands self)) = Ok maxNum ->
  (0 < maxNum)%R ->
  In band (Lane.bands self) ->
  exists i : R,
    Lane.intensity self maxNum band = Ok i
    /\ (0.2 <= i <= 1.0)%R
    /\ (Band.reads band = maxNum -> i = 1.0%R).
Proof.
  intros Hdata Hpos Hmax Hm Hin.
  apply max_R_Ok in Hmax. rewrite List.Forall_forall in Hmax, Hpos.
  pose proof (Hmax _ (in_map Band.reads _ _ Hin)) as Hle.
  pose proof (Hpos _ Hin) as Hge.
  unfold Lane.intensity. rewrite Hdata.
  destruct (Req_dec_T maxNum 0) as [->|Hne]; [lra |].
  eexists. split; [reflexivity |].
  assert (1 - (maxNum - Band.reads band) / maxNum = Band.reads band / maxNum)%R
    as -> by (field; done).
  assert (0 <= Band.reads band / maxNum <= 1)%R as Hval.
  { split.
    - apply Rmult_le_pos; [done | left; by apply Rinv_0_lt_compat].
    - apply (Rmult_le_reg_r maxNum); [done |].
      replace (Band.reads band / maxNum * maxNum)%R with (Band.reads band)
        by (field; done). lra. }
  unfold Py.max2_R, Lane.minBandIntensity.
  destruct (Rlt_dec (Band.reads band / maxNum) 0.2) as [Hlt|Hnlt].
  - split; [lra |]. intros Heq. rewrite Heq in Hlt.
    replace (maxNum / maxNum)%R with 1%R in Hlt by (field; done). lra.
  - split; [lra |]. intros ->. unfold Q2R. simpl. field. done.
Qed.

Lemma data_lane_intensity_range_witness :
  exists i : R,
    Lane.intensity
      (Lane.init "1" [Band.mk 100 "a" None 10%R; Band.mk 200 "b" None 5%R] None false)
      10%R (Band.mk 200 "b" None 5%R) = Ok i
    /\ (0.2 <= i <= 1.0)%R
    /\ (Band.reads (Band.mk 200 "b" None 5%R) = 10%R -> i = 1.0%R).
Proof.
  apply data_lane_intensity_range.
  - reflexivity.
  - simpl. repeat constructor; simpl; lra.
  - simpl. unfold Py.max2_R. destruct (Rlt_dec 10 5); [lra | reflexivity].
  - lra.
  - simpl. auto.
Defined.

(** ** The loop over the bands of a lane (lines 110-123) *)

Lemma for_each_app {A S : Type} (body : S -> A -> result S) (s : S) (xs ys : list A) :
  for_each body s (xs ++ ys) = (for_each body s xs ≫= fun s' => for_each body s' ys).
Proof.
  revert s. induction xs as [|x xs IH]; intros s; simpl; [done |].
  destruct (body s x) as [s'|e]; simpl; [apply IH | done].
Qed.

Section draw_bands.

Variables (self : Lane.t) (xCoord minBandSize maxBandSize : Z).
Variables (dParam : drawParams.t) (maxNum : R).

Let row (band : Band.t) : result Z :=
  Lane.lengthtoIndex self band minBandSize maxBandSize.
Let pass := Lane.draw_bands self xCoord minBandSize maxBandSize dParam maxNum.
Let step := Lane.draw_band self xCoord minBandSize maxBandSize dParam maxNum.

Lemma draw_band_fresh (SeenY : gmap Z Z) (dwg : svgwrite.Drawing) (band : Band.t)
    (idx : Z) (i : R) :
  row band = Ok idx ->
  Lane.intensity self maxNum band = Ok i ->
  SeenY !! (idx + drawParams.margin dParam) = None ->
  step (SeenY, dwg) band
  = Ok (<[idx + drawParams.margin dParam := 1]> SeenY,
        Band.draw band dwg xCoord (idx + drawParams.margin dParam) i
                  (Some dParam) (Lane.isLadder self)).
Proof using Type.
  unfold row, step, Lane.draw_band. intros -> -> Hnone.
  cbn [mbind result_bind]. by rewrite Hnone.
Qed.

Lemma draw_band_seen (SeenY : gmap Z Z) (dwg : svgwrite.Drawing) (band : Band.t)
    (idx : Z) (i : R) :
  row band = Ok idx ->
  Lane.intensity self maxNum band = Ok i ->
  is_Some (SeenY !! (idx + drawParams.margin dParam)) ->
  step (SeenY, dwg) band = Ok (SeenY, dwg).
Proof using Type.
  unfold row, step, Lane.draw_band. intros -> -> [v Hv].
  cbn [mbind result_bind]. by rewrite Hv.
Qed.

(** What one turn does to [SeenY]. *)
Lemma draw_band_rows (st st' : gmap Z Z * svgwrite.Drawing) (band : Band.t) :
  step st band = Ok st' ->
  exists idx, row band = Ok idx
    /\ (st'.1 = st.1 \/ st'.1 = <[idx + drawParams.margin dParam := 1]> (st.1)).
Proof using Type.
  unfold row, step, Lane.draw_band. destruct st as [SeenY dwg]. intros H.
  apply bind_Ok in H as (idx & Hidx & H). apply bind_Ok in H as (i & Hi & H).
  exists idx. split; [done |].
  destruct (SeenY !! _); injection H as <-; simpl; auto.
Qed.

(** A row stays used once a band was drawn on it. *)
Lemma draw_bands_seen_stays (bs : list Band.t) (st st' : gmap Z Z * svgwrite.Drawing)
    (y : Z) :
  pass st bs = Ok st' -> is_Some (st.1 !! y) -> is_Some (st'.1 !! y).
Proof using Type.
  unfold pass, Lane.draw_bands. revert st.
  induction bs as [|b bs IH]; simpl; intros st H Hy.
  - by injection H as <-.
  - apply bind_Ok in H as (st1 & Hstep & H). apply (IH st1 H).
    apply draw_band_rows in Hstep as (idx & _ & [->| ->]); [done |].
    destruct (decide (idx + drawParams.margin dParam = y)) as [->|Hne].
    + rewrite lookup_insert_eq. eauto.
    + by rewrite lookup_insert_ne.
Qed.

(** A row no band of the list maps to is as free after the list as before. *)
Lemma draw_bands_row_free (bs : list Band.t) (st st' : gmap Z Z * svgwrite.Drawing)
    (idx : Z) :
  pass st bs = Ok st' ->
  List.Forall (fun b => row b <> Ok idx) bs ->
  st.1 !! (idx + drawParams.margin dParam) = None ->
  st'.1 !! (idx + drawParams.margin dParam) = None.
Proof using Type.
  unfold pass, Lane.draw_bands. revert st.
  induction bs as [|b bs IH]; simpl; intros st H Hrows Hy.
  - by injection H as <-.
  - apply bind_Ok in H as (st1 & Hstep & H).
    apply Forall_cons in Hrows as [Hb Hrows]. apply (IH st1 H Hrows).
    apply draw_band_rows in Hstep as (idx' & Hidx' & [->| ->]); [done |].
    rewrite lookup_insert_ne; [done |]. intros Heq.
    apply Hb. rewrite Hidx'. f_equal. lia.
Qed.

(** A band whose row is used already changes nothing, wherever it stands. *)
Lemma draw_bands_skip (bs1 bs2 : list Band.t) (band : Band.t)
    (st : gmap Z Z * svgwrite.Drawing) (idx : Z) (i : R) :
  row band = Ok idx ->
  Lane.intensity self maxNum band = Ok i ->
  is_Some (st.1 !! (idx + drawParams.margin dParam)) ->
  pass st (bs1 ++ band :: bs2) = pass st (bs1 ++ bs2).
Proof using Type.
  intros Hrow Hi Hy. unfold pass, Lane.draw_bands. rewrite !for_each_app.
  destruct (for_each _ st bs1) as [[SeenY dwg]|e] eqn:H1; [| done].
  cbn [mbind result_bind for_each].
  fold step. rewrite (draw_band_seen SeenY dwg band idx i Hrow Hi); [done |].
  apply (draw_bands_seen_stays bs1 st (SeenY, dwg) _ H1 Hy).
Qed.

(** The first band of a row is drawn there, and a later band of the same
    row leaves no trace. *)
Lemma draw_bands_collision (pre mid post : list Band.t) (b1 b2 : Band.t)
    (st : gmap Z Z * svgwrite.Drawing) (idx : Z) (i1 i2 : R) :
  row b1 = Ok idx ->
  row b2 = Ok idx ->
  Lane.intensity self maxNum b1 = Ok i1 ->
  Lane.intensity self maxNum b2 = Ok i2 ->
  st.1 !! (idx + drawParams.margin dParam) = None ->
  List.Forall (fun b => row b <> Ok idx) pre ->
  pass st (pre ++ b1 :: mid ++ b2 :: post)
  = (pass st pre ≫= fun '(SeenY, dwg) =>
       pass (<[idx + drawParams.margin dParam := 1]> SeenY,
             Band.draw b1 dwg xCoord (idx + drawParams.margin dParam) i1
                       (Some dParam) (Lane.isLadder self))
            (mid ++ post)).
Proof using Type.
  intros Hr1 Hr2 Hi1 Hi2 Hy Hpre. unfold pass, Lane.draw_bands.
  rewrite for_each_app.
  destruct (for_each _ st pre) as [[SeenY dwg]|e] eqn:Hp; [| done].
  cbn [mbind result_bind for_each]. fold step.
  rewrite (draw_band_fresh SeenY dwg b1 idx i1 Hr1 Hi1); cycle 1.
  { apply (draw_bands_row_free pre st (SeenY, dwg) idx Hp Hpre Hy). }
  cbn [mbind result_bind].
  apply (draw_bands_skip mid post b2 _ idx i2 Hr2 Hi2).
  simpl. rewrite lookup_insert_eq. eauto.
Qed.

End draw_bands.

Lemma fold_max2_R_In (xs : list R) (x : R) :
  fold_left Py.max2_R xs x = x \/ In (fold_left Py.max2_R xs x) xs.
Proof.
  revert x. induction xs as [|y ys IH]; intros x; simpl; [by left |].
  destruct (IH (Py.max2_R x y)) as [->|Hin]; [| auto].
  unfold Py.max2_R. destruct (Rlt_dec x y); auto.
Qed.

Lemma max_R_In (xs : list R) (m : R) : Py.max_R xs = Ok m -> In m xs.
Proof.
  destruct xs as [|x xs]; simpl; [done |]. intros [= <-].
  destruct (fold_max2_R_In xs x) as [->|Hin]; auto.
Qed.

(** [max] depends on the items only, not on their order. *)
Lemma max_R_ext (xs ys : list R) (m : R) :
  (forall x, In x xs <-> In x ys) -> Py.max_R xs = Ok m -> Py.max_R ys = Ok m.
Proof.
  intros Hiff Hm.
  pose proof (max_R_In _ _ Hm) as Hin. pose proof (max_R_Ok _ _ Hm) as Hub.
  destruct (Py.max_R ys) as [m'|e] eqn:Hm'.
  - pose proof (max_R_In _ _ Hm') as Hin'. pose proof (max_R_Ok _ _ Hm') as Hub'.
    rewrite List.Forall_forall in Hub, Hub'.
    apply Hiff in Hin. apply Hiff in Hin'.
    pose proof (Hub _ Hin'). pose proof (Hub' _ Hin). f_equal. lra.
  - destruct ys; [| done]. apply Hiff in Hin. destruct Hin.
Qed.

Lemma In_swap {A : Type} (pre mid post : list A) (a b x : A) :
  In x (pre ++ a :: mid ++ b :: post) <-> In x (pre ++ b :: mid ++ a :: post).
Proof. rewrite !in_app_iff. simpl. rewrite !in_app_iff. simpl. tauto. Qed.

(** C1. In one pass of [Lane.draw], let [b1] be the first band of the lane
    that maps to its pixel row and [b2] a later band that maps to the same
    row. Then [b1] is drawn on that row and [b2] adds nothing to the
    drawing: the pass goes on as over the bands with [b2] left out. With
    the two bands swapped in the input it is [b2] that is drawn and [b1]
    that adds nothing. *)
Theorem Lane_draw_row_collision (self : Lane.t) (dwg : svgwrite.Drawing)
    (xCoord minBandSize maxBandSize : Z) (dParam : drawParams.t)
    (pre mid post : list Band.t) (b1 b2 : Band.t) (idx : Z) (i1 i2 maxNum : R) :
  Lane.bands self = pre ++ b1 :: mid ++ b2 :: post ->
  Py.max_R (map Band.reads (Lane.bands self)) = Ok maxNum ->
  Lane.lengthtoIndex self b1 minBandSize maxBandSize = Ok idx ->
  Lane.lengthtoIndex self b2 minBandSize maxBandSize = Ok idx ->
  Lane.intensity self maxNum b1 = Ok i1 ->
  Lane.intensity self maxNum b2 = Ok i2 ->
  List.Forall
    (fun b => Lane.lengthtoIndex self b minBandSize maxBandSize <> Ok idx) pre ->
  let swapped :=
    {| Lane.name := Lane.name self;
       Lane.bands := pre ++ b2 :: mid ++ b1 :: post;
       Lane.isLadder := Lane.isLadder self;
       Lane.gelHeight := Lane.gelHeight self;
       Lane.dilationFactor := Lane.dilationFactor self |} in
  let yCoord := idx + drawParams.margin dParam in
  let titled :=
    svgwrite.add dwg
      (svgwrite.Text (Lane.name self) (xCoord, 10) "none"
         (Py.str (drawParams.fontsize dParam) ++ "px")%string svgwrite.rgb_100pct) in
  let pass := Lane.draw_bands self xCoord minBandSize maxBandSize dParam maxNum in
  let drawn (b : Band.t) (i : R) :=
    pass (∅, titled) pre ≫= fun '(SeenY, d) =>
      pass (<[yCoord := 1]> SeenY,
            Band.draw b d xCoord yCoord i (Some dParam) (Lane.isLadder self))
           (mid ++ post) ≫= fun '(_, d') => Ok d' in
  Lane.draw self dwg xCoord minBandSize maxBandSize (Some dParam) = drawn b1 i1
  /\ Lane.draw swapped dwg xCoord minBandSize maxBandSize (Some dParam) = drawn b2 i2.
Proof.
  intros Hbands Hmax Hr1 Hr2 Hi1 Hi2 Hpre swapped yCoord titled pass drawn.
  split.
  - unfold Lane.draw. rewrite Hmax. cbn [mbind result_bind drawParams.or_default].
    rewrite Hbands.
    rewrite (draw_bands_collision self xCoord minBandSize maxBandSize dParam maxNum
               pre mid post b1 b2 (∅, titled) idx i1 i2 Hr1 Hr2 Hi1 Hi2);
      [| apply lookup_empty | done].
    unfold drawn, pass. destruct (Lane.draw_bands _ _ _ _ _ _ _ pre) as [[S d]|e]; done.
  - unfold Lane.draw. cbn [Lane.bands swapped].
    rewrite (max_R_ext (map Band.reads (Lane.bands self))
               (map Band.reads (pre ++ b2 :: mid ++ b1 :: post)) maxNum); [| | done].
    2: { intros x. rewrite Hbands, !in_map_iff.
         split; intros (b & Hb & Hin); exists b; (split; [done |]);
           by apply In_swap. }
    cbn [mbind result_bind drawParams.or_default].
    change (Lane.draw_bands swapped) with (Lane.draw_bands self).
    change (Lane.name swapped) with (Lane.name self).
    rewrite (draw_bands_collision self xCoord minBandSize maxBandSize dParam maxNum
               pre mid post b2 b1 (∅, titled) idx i2 i1 Hr2 Hr1 Hi2 Hi1);
      [| apply lookup_empty | done].
    unfold drawn, pass. destruct (Lane.draw_bands _ _ _ _ _ _ _ pre) as [[S d]|e]; done.
Qed.

(** ** When the pixel row of a band is defined *)

Lemma int_R_0 : Py.int_R 0 = 0.
Proof.
  unfold Py.int_R. destruct (Rlt_dec 0 0) as [H|_]; [lra |].
  symmetry. apply Int_part_spec. simpl. lra.
Qed.

Lemma distance_Ok (self : Lane.t) (n : Z) :
  0 < n ->
  Lane.distance self n = Ok (IZR (Lane.dilationFactor self) * (4 - ln (IZR n) / ln 10))%R.
Proof. intros Hn. unfold Lane.distance. by rewrite log10_Ok. Qed.

Lemma log10_inj (n1 n2 : Z) :
  0 < n1 -> 0 < n2 -> (ln (IZR n1) / ln 10 = ln (IZR n2) / ln 10)%R -> n1 = n2.
Proof.
  intros H1 H2 Heq. apply eq_IZR, ln_inv.
  - apply (IZR_lt 0). lia.
  - apply (IZR_lt 0). lia.
  - pose proof ln_10_pos. apply (Rmult_eq_reg_r (/ ln 10)); [done |].
    apply Rinv_neq_0_compat. lra.
Qed.

Lemma expFactor_nonzero (dil low high : Z) :
  dil <> 0 -> 0 < low -> 0 < high -> low <> high ->
  (IZR dil * (4 - ln (IZR low) / ln 10) - IZR dil * (4 - ln (IZR high) / ln 10) <> 0)%R.
Proof.
  intros Hdil Hlow Hhigh Hne Heq. apply Hne, log10_inj; [done | done |].
  assert (IZR dil <> 0)%R as Hd by (intros H; apply Hdil, eq_IZR, H).
  apply (Rmult_eq_reg_l (IZR dil)); [lra | done].
Qed.

Lemma lengthtoIndex_total (self : Lane.t) (band : Band.t) (low high : Z) :
  Lane.dilationFactor self <> 0 -> 0 < low -> 0 < high -> low <> high ->
  0 < Band.numBases band ->
  exists idx, Lane.lengthtoIndex self band low high = Ok idx.
Proof.
  intros Hdil Hlow Hhigh Hne Hn. unfold Lane.lengthtoIndex.
  rewrite !distance_Ok by done. cbn [mbind result_bind].
  destruct (Req_dec_T _ 0) as [Heq|_]; [| eauto].
  by apply expFactor_nonzero in Heq.
Qed.

(** A band as long as the longest length of the scale lies on row 0. *)
Lemma lengthtoIndex_high (self : Lane.t) (band : Band.t) (low high : Z) :
  Lane.dilationFactor self <> 0 -> 0 < low -> 0 < high -> low <> high ->
  Band.numBases band = high ->
  Lane.lengthtoIndex self band low high = Ok 0.
Proof.
  intros Hdil Hlow Hhigh Hne Hn. unfold Lane.lengthtoIndex. rewrite Hn.
  rewrite !distance_Ok by done. cbn [mbind result_bind].
  destruct (Req_dec_T _ 0) as [Heq|Hne0]; [by apply expFactor_nonzero in Heq |].
  f_equal. rewrite <- int_R_0 at 1. f_equal.
  unfold Rdiv. rewrite Rminus_diag. by rewrite !Rmult_0_l.
Qed.

Lemma intensity_total (self : Lane.t) (maxNum : R) (band : Band.t) :
  Lane.isLadder self = true \/ maxNum <> 0%R ->
  exists i, Lane.intensity self maxNum band = Ok i.
Proof.
  intros H. unfold Lane.intensity. destruct (Lane.isLadder self); [eauto |].
  destruct H as [H|H]; [done |]. destruct (Req_dec_T maxNum 0); [done | eauto].
Qed.

Lemma draw_bands_total (self : Lane.t) (xCoord low high : Z) (dParam : drawParams.t)
    (maxNum : R) (bs : list Band.t) (st : gmap Z Z * svgwrite.Drawing) :
  Lane.dilationFactor self <> 0 -> 0 < low -> 0 < high -> low <> high ->
  Lane.isLadder self = true \/ maxNum <> 0%R ->
  List.Forall (fun b => 0 < Band.numBases b) bs ->
  exists st', Lane.draw_bands self xCoord low high dParam maxNum st bs = Ok st'.
Proof.
  intros Hdil Hlow Hhigh Hne Hmax Hbs. revert st. unfold Lane.draw_bands.
  induction Hbs as [|b bs Hb _ IH]; intros [SeenY dwg]; simpl; [eauto |].
  destruct (lengthtoIndex_total self b low high) as (idx & Hidx); [done.. |].
  destruct (intensity_total self maxNum b Hmax) as (i & Hi).
  unfold Lane.draw_band. rewrite Hidx, Hi. cbn [mbind result_bind].
  destruct (SeenY !! _); cbn [mbind result_bind]; apply IH.
Qed.

(** [Lane.draw] returns: a lane with bands of positive lengths, on a scale
    of two different positive lengths, with a dilation factor that is not
    zero and, for a data lane, positive [reads]. *)
Lemma Lane_draw_total (self : Lane.t) (dwg : svgwrite.Drawing) (xCoord low high : Z)
    (dParam : option drawParams.t) :
  Lane.dilationFactor self <> 0 -> 0 < low -> 0 < high -> low <> high ->
  Lane.bands self <> [] ->
  List.Forall (fun b => 0 < Band.numBases b) (Lane.bands self) ->
  Lane.isLadder self = true
  \/ List.Forall (fun b => (0 < Band.reads b)%R) (Lane.bands self) ->
  exists dwg', Lane.draw self dwg xCoord low high dParam = Ok dwg'.
Proof.
  intros Hdil Hlow Hhigh Hne Hbands Hlen Hreads. unfold Lane.draw.
  destruct (Py.max_R _) as [maxNum|e] eqn:Hmax; cycle 1.
  { destruct (Lane.bands self); done. }
  cbn [mbind result_bind].
  edestruct (draw_bands_total self xCoord low high (drawParams.or_default dParam)
               maxNum (Lane.bands self)) as ([S d] & ->); [done.. | | done | by eauto].
  destruct Hreads as [Hl|Hpos]; [by left | right].
  pose proof (max_R_Ok _ _ Hmax) as Hub. rewrite List.Forall_forall in Hub, Hpos.
  destruct (Lane.bands self) as [|b bs]; [done |].
  specialize (Hub (Band.reads b) (or_introl eq_refl)).
  specialize (Hpos b (or_introl eq_refl)). lra.
Qed.

Lemma Lane_draw_row_collision_witness :
  let b1 := Band.mk 200 "first" None 10%R in
  let b2 := Band.mk 200 "second" None 5%R in
  let i1 := Py.max2_R (1 - (10 - 10) / 10) Lane.minBandIntensity in
  let i2 := Py.max2_R (1 - (10 - 5) / 10) Lane.minBandIntensity in
  let dwg := svgwrite.mkDrawing "tmp.svg" "tiny" [] [] in
  let titled :=
    svgwrite.add dwg
      (svgwrite.Text "1" (80, 10) "none" "12px" svgwrite.rgb_100pct) in
  Lane.draw (Lane.init "1" [b1; b2] None false) dwg 80 100 200
            (Some drawParams.default)
  = Ok (Band.draw b1 titled 80 60 i1 (Some drawParams.default) false)
  /\ Lane.draw (Lane.init "1" [b2; b1] None false) dwg 80 100 200
               (Some drawParams.default)
     = Ok (Band.draw b2 titled 80 60 i2 (Some drawParams.default) false).
Proof.
  intros b1 b2 i1 i2 dwg titled.
  assert (Py.max_R (map Band.reads [b1; b2]) = Ok 10%R) as Hmax.
  { simpl. unfold Py.max2_R. destruct (Rlt_dec 10 5); [lra | reflexivity]. }
  assert (forall b, Band.numBases b = 200 ->
            Lane.lengthtoIndex (Lane.init "1" [b1; b2] None false) b 100 200 = Ok 0)
    as Hrow.
  { intros b Hb. apply lengthtoIndex_high; [simpl; lia | lia | lia | lia | exact Hb]. }
  assert (forall b,
            Lane.intensity (Lane.init "1" [b1; b2] None false) 10 b
            = Ok (Py.max2_R (1 - (10 - Band.reads b) / 10) Lane.minBandIntensity))
    as Hint.
  { intros b. unfold Lane.intensity. simpl.
    destruct (Req_dec_T 10 0); [lra | reflexivity]. }
  exact (Lane_draw_row_collision (Lane.init "1" [b1; b2] None false) dwg 80 100 200
           drawParams.default [] [] [] b1 b2 0 i1 i2 10%R
           eq_refl Hmax (Hrow b1 eq_refl) (Hrow b2 eq_refl) (Hint b1) (Hint b2)
           (List.Forall_nil _)).
Defined.

(** ** What a call of [draw] adds to the drawing *)

Lemma add_all_app (dwg : svgwrite.Drawing) (es1 es2 : list svgwrite.Element) :
  svgwrite.add_all (svgwrite.add_all dwg es1) es2 = svgwrite.add_all dwg (es1 ++ es2).
Proof. unfold svgwrite.add_all. by rewrite fold_left_app. Qed.

Lemma add_all_cons (dwg : svgwrite.Drawing) (e : svgwrite.Element)
    (es : list svgwrite.Element) :
  svgwrite.add_all (svgwrite.add dwg e) es = svgwrite.add_all dwg (e :: es).
Proof. done. Qed.

Lemma add_all_elements (dwg : svgwrite.Drawing) (es : list svgwrite.Element) :
  svgwrite.elements (svgwrite.add_all dwg es) = svgwrite.elements dwg ++ es.
Proof.
  revert dwg. induction es as [|e es IH]; intros dwg.
  - simpl. by rewrite app_nil_r.
  - rewrite <- add_all_cons, IH. simpl. by rewrite <- app_assoc.
Qed.

Lemma Band_draw_adds (band : Band.t) (xCoord yCoord : Z) (intensity : R)
    (dParam : option drawParams.t) (isLadder : bool) :
  exists es, es <> [] /\
    forall dwg, Band.draw band dwg xCoord yCoord intensity dParam isLadder
                = svgwrite.add_all dwg es.
Proof.
  unfold Band.draw. destruct (Py.truthy (Band.link band)).
  - eexists [_; _]. split; [done |]. intros dwg. reflexivity.
  - eexists [_; _]. split; [done |]. intros dwg. reflexivity.
Qed.

Lemma draw_bands_adds (self : Lane.t) (xCoord low high : Z) (dParam : drawParams.t)
    (maxNum : R) (bs : list Band.t) (SeenY SeenY' : gmap Z Z)
    (dwg dwg' : svgwrite.Drawing) :
  Lane.draw_bands self xCoord low high dParam maxNum (SeenY, dwg) bs
  = Ok (SeenY', dwg') ->
  exists es, forall dwg2,
    Lane.draw_bands self xCoord low high dParam maxNum (SeenY, dwg2) bs
    = Ok (SeenY', svgwrite.add_all dwg2 es).
Proof.
  unfold Lane.draw_bands. revert SeenY dwg.
  induction bs as [|b bs IH]; simpl; intros SeenY dwg H.
  - injection H as <- <-. exists []. done.
  - apply bind_Ok in H as ([S1 d1] & Hstep & H).
    destruct (IH S1 d1 H) as (es & Hes).
    unfold Lane.draw_band in Hstep |- *.
    destruct (Lane.lengthtoIndex self b low high) as [idx|e]; [| done].
    destruct (Lane.intensity self maxNum b) as [i|e]; [| done].
    cbn [mbind result_bind] in Hstep |- *.
    destruct (SeenY !! _) eqn:Hseen.
    + injection Hstep as <- <-. exists es. intros dwg2.
      cbn [mbind result_bind]. apply Hes.
    + injection Hstep as <- <-.
      destruct (Band_draw_adds b xCoord (idx + drawParams.margin dParam) i
                  (Some dParam) (Lane.isLadder self)) as (eb & _ & Heb).
      exists (eb ++ es). intros dwg2. cbn [mbind result_bind].
      rewrite Heb, Hes. by rewrite add_all_app.
Qed.

Lemma Lane_draw_adds (self : Lane.t) (dwg dwg' : svgwrite.Drawing)
    (xCoord low high : Z) (dParam : option drawParams.t) :
  Lane.draw self dwg xCoord low high dParam = Ok dwg' ->
  exists es, es <> [] /\
    forall dwg2, Lane.draw self dwg2 xCoord low high dParam
                 = Ok (svgwrite.add_all dwg2 es).
Proof.
  unfold Lane.draw. intros H.
  apply bind_Ok in H as (maxNum & Hmax & H). apply bind_Ok in H as ([S d] & Hpass & H).
  apply draw_bands_adds in Hpass as (es & Hes).
  eexists (_ :: es). split; [done |]. intros dwg2.
  rewrite Hmax. cbn [mbind result_bind]. rewrite Hes. cbn [mbind result_bind].
  by rewrite add_all_cons.
Qed.

Lemma lanes_draw_adds (f : nat -> Z) (low high : Z) (dParam : option drawParams.t)
    (items : list (nat * Lane.t)) (dwg dwg' : svgwrite.Drawing) :
  for_each (fun dwg '(index, lane) => Lane.draw lane dwg (f index) low high dParam)
           dwg items = Ok dwg' ->
  exists es, forall dwg2,
    for_each (fun dwg '(index, lane) => Lane.draw lane dwg (f index) low high dParam)
             dwg2 items = Ok (svgwrite.add_all dwg2 es).
Proof.
  revert dwg. induction items as [|[index lane] items IH]; simpl; intros dwg H.
  - exists []. done.
  - apply bind_Ok in H as (d1 & Hlane & H).
    destruct (IH d1 H) as (es & Hes).
    apply Lane_draw_adds in Hlane as (el & _ & Hel).
    exists (el ++ es). intros dwg2. rewrite Hel. cbn [mbind result_bind].
    rewrite Hes. by rewrite add_all_app.
Qed.

(** A call of [Gel.draw] that returns adds the same elements, whatever the
    drawing holds already. *)
Lemma Gel_draw_adds (self self' : Gel.t) (out : Gel.output) :
  Gel.draw self = Ok (self', out) ->
  exists es, es <> [] /\
    forall dwg2,
      let doc := svgwrite.add_all dwg2 es in
      let with_dwg (d : svgwrite.Drawing) :=
        {| Gel.boldLadder := Gel.boldLadder self; Gel.lanes := Gel.lanes self;
           Gel.dParam := Gel.dParam self; Gel.tempFile := Gel.tempFile self;
           Gel.filename := Gel.filename self; Gel.dwg := d;
           Gel.maxNBases := Gel.maxNBases self; Gel.minNBases := Gel.minNBases self;
           Gel.ladder := Gel.ladder self |} in
      Gel.draw (with_dwg dwg2)
      = Ok (with_dwg doc,
            if Py.truthy (Gel.filename self)
            then Gel.Saved (default EmptyString (Gel.filename self)) doc
            else Gel.Returned doc).
Proof.
  intros H. unfold Gel.draw in H.
  apply bind_Ok in H as (d1 & Hladder & H). apply bind_Ok in H as (d2 & Hlanes & H).
  apply Lane_draw_adds in Hladder as (el & _ & Hel).
  apply lanes_draw_adds in Hlanes as (es & Hes).
  eexists (_ :: el ++ es). split; [done |]. intros dwg2. cbv zeta. unfold Gel.draw.
  cbn [Gel.dwg Gel.dParam Gel.ladder Gel.lanes Gel.minNBases Gel.maxNBases
       Gel.filename Gel.tempFile Gel.boldLadder].
  rewrite Hel. cbn [mbind result_bind].
  change (Gel.lane_x _) with (Gel.lane_x self).
  rewrite Hes. cbn [mbind result_bind].
  rewrite add_all_app, add_all_cons.
  change (Gel.gelWidth _) with (Gel.gelWidth self).
  destruct (Py.truthy (Gel.filename self)); reflexivity.
Qed.

Lemma lanes_draw_total (f : nat -> Z) (low high : Z) (dParam : option drawParams.t)
    (items : list (nat * Lane.t)) (dwg : svgwrite.Drawing) :
  0 < low -> 0 < high -> low <> high ->
  List.Forall
    (fun item : nat * Lane.t =>
       Lane.dilationFactor item.2 <> 0 /\ Lane.bands item.2 <> []
       /\ List.Forall (fun b => 0 < Band.numBases b) (Lane.bands item.2)
       /\ (Lane.isLadder item.2 = true
           \/ List.Forall (fun b => (0 < Band.reads b)%R) (Lane.bands item.2)))
    items ->
  exists dwg',
    for_each (fun dwg '(index, lane) => Lane.draw lane dwg (f index) low high dParam)
             dwg items = Ok dwg'.
Proof.
  intros Hlow Hhigh Hne Hitems. revert dwg.
  induction Hitems as [|[index lane] items (Hdil & Hbands & Hlen & Hreads) _ IH];
    intros dwg; simpl; [eauto |].
  destruct (Lane_draw_total lane dwg (f index) low high dParam) as (d1 & ->);
    [done.. |].
  cbn [mbind result_bind]. apply IH.
Qed.

(** [Gel.draw] returns for a Gel whose scale has two different positive
    ends and whose ladder and data lanes can each be drawn. *)
Lemma Gel_draw_total (self : Gel.t) :
  0 < Gel.minNBases self -> 0 < Gel.maxNBases self ->
  Gel.minNBases self <> Gel.maxNBases self ->
  List.Forall
    (fun lane =>
       Lane.dilationFactor lane <> 0 /\ Lane.bands lane <> []
       /\ List.Forall (fun b => 0 < Band.numBases b) (Lane.bands lane)
       /\ (Lane.isLadder lane = true
           \/ List.Forall (fun b => (0 < Band.reads b)%R) (Lane.bands lane)))
    (Gel.ladder self :: Gel.lanes self) ->
  exists self' out, Gel.draw self = Ok (self', out).
Proof.
  intros Hmin Hmax Hne Hall. apply Forall_cons in Hall as [Hladder Hlanes].
  destruct Hladder as (Hdil & Hbands & Hlen & Hreads).
  unfold Gel.draw.
  edestruct (Lane_draw_total (Gel.ladder self)) as (d1 & ->); [done.. |].
  cbn [mbind result_bind].
  edestruct (lanes_draw_total (Gel.lane_x self) (Gel.minNBases self)
               (Gel.maxNBases self) (Some (Gel.dParam self))
               (Gel.enumerate (Gel.lanes self)) d1) as (d2 & ->); [done.. | |].
  { unfold Gel.enumerate, Gel.enumerate_from. generalize 0%nat.
    induction Hlanes as [|lane lanes Hlane _ IH]; intros k; simpl; constructor.
    - exact Hlane.
    - apply IH. }
  cbn [mbind result_bind]. destruct (Py.truthy _); eauto.
Qed.

(** A second call of [draw] behaves as the first and adds the same elements
    once more to the drawing that holds them already. *)
Lemma Gel_draw_again (self self1 : Gel.t) (out1 : Gel.output) :
  Gel.draw self = Ok (self1, out1) ->
  exists es self2 out2,
    es <> []
    /\ svgwrite.elements (Gel.document out1) = svgwrite.elements (Gel.dwg self) ++ es
    /\ Gel.draw self1 = Ok (self2, out2)
    /\ svgwrite.elements (Gel.document out2)
       = svgwrite.elements (Gel.document out1) ++ es
    /\ out2 <> out1.
Proof.
  intros H. destruct (Gel_draw_adds self self1 out1 H) as (es & Hes & Hdraw).
  pose proof (Hdraw (Gel.dwg self)) as H0. cbv beta zeta in H0.
  replace {| Gel.boldLadder := Gel.boldLadder self; Gel.lanes := Gel.lanes self;
             Gel.dParam := Gel.dParam self; Gel.tempFile := Gel.tempFile self;
             Gel.filename := Gel.filename self; Gel.dwg := Gel.dwg self;
             Gel.maxNBases := Gel.maxNBases self; Gel.minNBases := Gel.minNBases self;
             Gel.ladder := Gel.ladder self |} with self in H0 by (by destruct self).
  rewrite H in H0. injection H0 as -> ->.
  pose proof (Hdraw (svgwrite.add_all (Gel.dwg self) es)) as H1. cbv beta zeta in H1.
  exists es. eexists. eexists. split; [done |].
  assert (forall d,
            Gel.document (if Py.truthy (Gel.filename self)
                          then Gel.Saved (default EmptyString (Gel.filename self)) d
                          else Gel.Returned d) = d) as Hdoc
    by (intros d; destruct (Py.truthy _); done).
  split; [by rewrite Hdoc, add_all_elements |].
  split; [exact H1 |].
  split; [by rewrite !Hdoc, !add_all_elements |].
  intros Heq. apply (f_equal Gel.document) in Heq. rewrite !Hdoc in Heq.
  apply (f_equal svgwrite.elements) in Heq. rewrite !add_all_elements in Heq.
  apply (f_equal (@List.length _)) in Heq. rewrite !length_app in Heq.
  destruct es; [done | simpl in Heq; lia].
Qed.

(** C6, as the code has it. A call of [Gel.draw] that returns hands out the
    drawing with the elements [es] it added; a second call on the same Gel
    returns as well and adds the same elements once more, so that its
    document is the first one followed by [es] again, and differs from it. *)
Theorem Gel_draw_twice_accumulates (self self1 : Gel.t) (out1 : Gel.output) :
  Gel.draw self = Ok (self1, out1) ->
  exists es self2 out2,
    es <> []
    /\ svgwrite.elements (Gel.document out1) = svgwrite.elements (Gel.dwg self) ++ es
    /\ Gel.draw self1 = Ok (self2, out2)
    /\ svgwrite.elements (Gel.document out2)
       = svgwrite.elements (Gel.document out1) ++ es
    /\ out2 <> out1.
Proof. apply Gel_draw_again. Qed.

(** The Gel of one data lane with bands of 110 and 140 bases is constructed
    and drawn. *)
Lemma example_gel_draws :
  exists g g1 out1,
    Gel.init "tmp.svg"
      [Lane.init "1" [Band.mk 110 "a" None 10%R; Band.mk 140 "b" None 5%R] None false]
      None Gel.default_ladder Gel.default_boldLadder None = Ok g
    /\ Gel.draw g = Ok (g1, out1).
Proof.
  destruct (Gel.init _ _ _ _ _ _) as [g|e] eqn:Hinit; [| done].
  cbv -[IZR Q2R] in Hinit. injection Hinit as <-.
  match goal with |- exists g g1 out1, Ok ?x = Ok g /\ _ =>
    destruct (Gel_draw_total x) as (g1 & out1 & Hdraw) end.
  - simpl. lia.
  - simpl. lia.
  - simpl. lia.
  - simpl. constructor; [| constructor; [| constructor]].
    + split; [done |]. split; [done |]. split; [| by left].
      repeat (constructor; [simpl; lia |]). constructor.
    + split; [done |]. split; [done |]. split.
      * repeat (constructor; [simpl; lia |]). constructor.
      * right. repeat (constructor; [simpl; lra |]). constructor.
  - eauto.
Qed.

Lemma Gel_draw_twice_accumulates_witness :
  exists g g1 out1,
    Gel.init "tmp.svg"
      [Lane.init "1" [Band.mk 110 "a" None 10%R; Band.mk 140 "b" None 5%R] None false]
      None Gel.default_ladder Gel.default_boldLadder None = Ok g
    /\ Gel.draw g = Ok (g1, out1)
    /\ exists es g2 out2,
      es <> []
      /\ svgwrite.elements (Gel.document out1) = svgwrite.elements (Gel.dwg g) ++ es
      /\ Gel.draw g1 = Ok (g2, out2)
      /\ svgwrite.elements (Gel.document out2)
         = svgwrite.elements (Gel.document out1) ++ es
      /\ out2 <> out1.
Proof.
  destruct example_gel_draws as (g & g1 & out1 & Hinit & Hdraw).
  exists g, g1, out1. split; [exact Hinit |]. split; [exact Hdraw |].
  exact (Gel_draw_twice_accumulates g g1 out1 Hdraw).
Defined.

(** C6, as the spec has it, fails: drawn twice, the Gel of one data lane
    with bands of 110 and 140 bases hands out two different documents. *)
Lemma Gel_draw_twice_differs :
  exists g g1 out1 g2 out2,
    Gel.init "tmp.svg"
      [Lane.init "1" [Band.mk 110 "a" None 10%R; Band.mk 140 "b" None 5%R] None false]
      None Gel.default_ladder Gel.default_boldLadder None = Ok g
    /\ Gel.draw g = Ok (g1, out1)
    /\ Gel.draw g1 = Ok (g2, out2)
    /\ out1 <> out2.
Proof.
  destruct example_gel_draws as (g & g1 & out1 & Hinit & Hdraw).
  destruct (Gel_draw_again g g1 out1 Hdraw) as (es & g2 & out2 & _ & _ & Hdraw2 & _ & Hne).
  exists g, g1, out1, g2, out2. split; [done |]. split; [done |]. split; [done |].
  intros Heq. by apply Hne.
Qed.

(** ** The width of the canvas and the range of the scale, evaluated *)

Lemma Gel_draw_background (self self' : Gel.t) (out : Gel.output) :
  Gel.draw self = Ok (self', out) ->
  exists rest,
    svgwrite.elements (Gel.document out)
    = svgwrite.elements (Gel.dwg self)
      ++ svgwrite.Rect (0, 0)
           (Gel.gelWidth self,
            drawParams.gelHeight (Gel.dParam self)
            + 2 * drawParams.margin (Gel.dParam self)) "black" None
         :: rest.
Proof.
  unfold Gel.draw. intros H.
  apply bind_Ok in H as (d1 & Hladder & H). apply bind_Ok in H as (d2 & Hlanes & H).
  pose proof Hladder as Hl. apply Lane_draw_adds in Hl as (el & _ & Hel).
  rewrite Hel in Hladder. injection Hladder as <-.
  pose proof Hlanes as Hs. apply lanes_draw_adds in Hs as (es & Hes).
  rewrite Hes in Hlanes. injection Hlanes as <-.
  exists (el ++ es).
  destruct (Py.truthy _); injection H as _ <-; simpl;
    rewrite !add_all_elements; simpl; by rewrite <- !app_assoc.
Qed.

(** C4, evaluated. For one data lane and the default parameters the canvas
    is 150 wide: [len(self.lanes)] counts the data lanes only. With the
    ladder counted the width would be 200; the data lane ends at 140, ten
    pixels from the right edge, where the margin is 60. *)
Theorem gelWidth_leaves_out_the_ladder :
  exists g g1 out1 rest,
    Gel.init "tmp.svg"
      [Lane.init "1" [Band.mk 110 "a" None 10%R; Band.mk 140 "b" None 5%R] None false]
      None Gel.default_ladder Gel.default_boldLadder None = Ok g
    /\ Gel.draw g = Ok (g1, out1)
    /\ svgwrite.elements (Gel.document out1)
       = svgwrite.elements (Gel.dwg g)
         ++ svgwrite.Rect (0, 0) (150, 520) "black" None :: rest
    /\ Gel.gelWidth g = 150
    /\ (let p := Gel.dParam g in
        let laneCount := Z.of_nat (List.length (Gel.lanes g)) + 1 in
        2 * drawParams.margin p + (laneCount - 1) * drawParams.gapWidth p
        + laneCount * drawParams.laneWidth p = 200)
    /\ Gel.lane_x g 0 + drawParams.laneWidth (Gel.dParam g) = 140
    /\ drawParams.margin (Gel.dParam g) = 60.
Proof.
  destruct example_gel_draws as (g & g1 & out1 & Hinit & Hdraw).
  destruct (Gel_draw_background g g1 out1 Hdraw) as (rest & Hrest).
  exists g, g1, out1, rest. split; [exact Hinit |]. split; [exact Hdraw |].
  cbv -[IZR Q2R] in Hinit. injection Hinit as <-.
  split; [exact Hrest |]. repeat split.
Qed.

(** C5, evaluated. For data lengths 1300 and 1900 and the default markers
    the ladder holds 1250, 1500, 1750 and 2000, and the lower end of the
    scale becomes 1000, the value [newMin] starts from, not 1250, the
    smallest marker of the ladder below the data. *)
Theorem newMin_starts_at_1000 :
  exists bands,
    Gel.makeLadder
      [Lane.init "1" [Band.mk 1300 "a" None 10%R; Band.mk 1900 "b" None 5%R] None false]
      Gel.default_ladder Gel.default_boldLadder
    = Ok (bands, 1000, 2000)
    /\ map Band.numBases bands = [1250; 1500; 1750; 2000].
Proof. eexists. split; reflexivity. Qed.

(** ** Constructors copy the sequences they are given *)

Lemma lane_value_set_lanes (σ : Obj.store) (l : Obj.loc) (ls : list Obj.Lane)
    (o : Obj.Lane) :
  Obj.lane_value (Obj.set_lanes σ l ls) o = Obj.lane_value σ o.
Proof. done. Qed.

Lemma lane_value_set_bands_ne (σ : Obj.store) (l : Obj.loc) (bs : list Band.t)
    (o : Obj.Lane) :
  Obj.bands o <> l ->
  Obj.lane_value (Obj.set_bands σ l bs) o = Obj.lane_value σ o.
Proof.
  intros Hne. unfold Obj.lane_value, Obj.set_bands. simpl.
  by rewrite lookup_insert_ne.
Qed.

Lemma lane_value_dom (σ : Obj.store) (o : Obj.Lane) (v : Lane.t) :
  Obj.lane_value σ o = Some v -> Obj.bands o ∈ dom (Obj.band_lists σ).
Proof.
  unfold Obj.lane_value. intros H. apply elem_of_dom.
  destruct (Obj.band_lists σ !! Obj.bands o); [eauto | done].
Qed.

Lemma mapM_lane_value_ext (σ σ' : Obj.store) (ls : list Obj.Lane) (vs : list Lane.t) :
  (forall o v, Obj.lane_value σ o = Some v -> Obj.lane_value σ' o = Some v) ->
  mapM (Obj.lane_value σ) ls = Some vs -> mapM (Obj.lane_value σ') ls = Some vs.
Proof.
  intros Hext. rewrite !mapM_Some. intros H.
  induction H as [|o v ls vs Hv _ IH]; constructor; auto.
Qed.

Lemma Lane_init_Some (σ σ1 : Obj.store) (name : string) (r : Obj.loc)
    (dParam : option drawParams.t) (isLadder : bool) (o : Obj.Lane) :
  Obj.Lane_init σ name r dParam isLadder = Some (σ1, o) ->
  exists bs,
    Obj.band_lists σ !! r = Some bs
    /\ Obj.bands o = fresh (dom (Obj.band_lists σ))
    /\ σ1 = Obj.set_bands σ (Obj.bands o) bs
    /\ Obj.lane_value σ1 o = Some (Lane.init name bs dParam isLadder).
Proof.
  unfold Obj.Lane_init. destruct (Obj.band_lists σ !! r) as [bs|] eqn:Hr; [| done].
  simpl. intros [= <- <-]. exists bs. simpl. split; [done |]. split; [done |].
  split; [done |]. unfold Obj.lane_value. simpl. by rewrite lookup_insert_eq.
Qed.

Lemma Gel_init_Some (σ σ2 : Obj.store) (tmp : string) (r : Obj.loc)
    (dParam : option drawParams.t) (ladder boldLadder : list Z)
    (filename : option string) (g : Obj.Gel) :
  Obj.Gel_init σ tmp r dParam ladder boldLadder filename = Some (Ok (σ2, g)) ->
  exists ls vs v,
    Obj.lane_lists σ !! r = Some ls
    /\ mapM (Obj.lane_value σ) ls = Some vs
    /\ Gel.init tmp vs dParam ladder boldLadder filename = Ok v
    /\ Obj.lanes g = fresh (dom (Obj.lane_lists σ))
    /\ Obj.lane_lists σ2 = <[Obj.lanes g := ls]> (Obj.lane_lists σ)
    /\ Obj.gel_value σ2 g = Some v.
Proof.
  unfold Obj.Gel_init.
  destruct (Obj.lane_lists σ !! r) as [ls|] eqn:Hr; [| done]. simpl.
  destruct (mapM (Obj.lane_value σ) ls) as [vs|] eqn:Hvs; [| done]. simpl.
  destruct (Gel.init tmp vs dParam ladder boldLadder filename) as [v|e] eqn:Hv;
    [| done].
  destruct (Obj.Lane_init _ _ _ _ _) as [[σ3 lad]|] eqn:Hlad; [| done]. simpl.
  intros [= <- <-]. exists ls, vs, v. split; [done |]. split; [done |].
  split; [done |]. simpl. split; [done |].
  apply Lane_init_Some in Hlad as (bs & Hbs & Hfresh & -> & Hval).
  simpl in Hbs. rewrite lookup_insert_eq in Hbs. injection Hbs as <-.
  split; [done |].
  unfold Obj.gel_value. simpl. rewrite lookup_insert_eq. simpl.
  erewrite mapM_lane_value_ext; [| | exact Hvs]; cycle 1.
  { intros o w Hw. rewrite <- Hw.
    pose proof (lane_value_dom _ _ _ Hw) as Hdom.
    rewrite lane_value_set_bands_ne; cycle 1.
    { intros Heq. rewrite Hfresh in Heq. rewrite Heq in Hdom.
      match type of Heq with _ = fresh ?X =>
        pose proof (is_fresh X) as Hnf; set (y := fresh X) in * end.
      apply Hnf. simpl. rewrite dom_insert_L. by apply elem_of_union_r. }
    rewrite lane_value_set_bands_ne; [done |].
    intros Heq. rewrite Heq in Hdom. by apply is_fresh in Hdom. }
  simpl. rewrite Hval. simpl. f_equal.
  apply init_Ok in Hv as Hv'. destruct Hv' as (bands & _ & Hb & Hl).
  unfold Gel.init in Hv. destruct (Py.truthy filename);
    apply bind_Ok in Hv as ([[bs mn] mx] & _ & Hv); injection Hv as <-; done.
Qed.

(** C9. [Lane(name, bands)] and [Gel(lanes)] keep a copy of the sequence
    they are given, in a list object of their own: whatever the caller
    does to the original list afterwards, the bands of the lane (the lanes
    of the Gel), the value either stands for and what its [draw] hands
    out stay as they were. *)
Theorem constructors_copy_their_sequences
    (σ σ1 : Obj.store) (name : string) (bands : Obj.loc)
    (dParam : option drawParams.t) (isLadder : bool) (o : Obj.Lane)
    (σ' σ2 : Obj.store) (tmp : string) (lanes : Obj.loc)
    (dParam' : option drawParams.t) (ladder boldLadder : list Z)
    (filename : option string) (g : Obj.Gel) :
  Obj.Lane_init σ name bands dParam isLadder = Some (σ1, o) ->
  Obj.Gel_init σ' tmp lanes dParam' ladder boldLadder filename = Some (Ok (σ2, g)) ->
  (forall bs' : list Band.t,
     let mutated := Obj.set_bands σ1 bands bs' in
     Obj.band_lists σ1 !! Obj.bands o = Obj.band_lists σ !! bands
     /\ Obj.band_lists mutated !! Obj.bands o = Obj.band_lists σ1 !! Obj.bands o
     /\ is_Some (Obj.lane_value σ1 o)
     /\ Obj.lane_value mutated o = Obj.lane_value σ1 o
     /\ forall dwg xCoord minBandSize maxBandSize p,
          Obj.Lane_draw mutated o dwg xCoord minBandSize maxBandSize p
          = Obj.Lane_draw σ1 o dwg xCoord minBandSize maxBandSize p)
  /\ (forall ls' : list Obj.Lane,
        let mutated := Obj.set_lanes σ2 lanes ls' in
        Obj.lane_lists σ2 !! Obj.lanes g = Obj.lane_lists σ' !! lanes
        /\ Obj.lane_lists mutated !! Obj.lanes g = Obj.lane_lists σ2 !! Obj.lanes g
        /\ is_Some (Obj.gel_value σ2 g)
        /\ Obj.gel_value mutated g = Obj.gel_value σ2 g
        /\ Obj.Gel_draw mutated g = Obj.Gel_draw σ2 g).
Proof.
  intros Hlane Hgel. split.
  - intros bs' mutated.
    apply Lane_init_Some in Hlane as (bs & Hbs & Hfresh & -> & Hval).
    assert (bands <> Obj.bands o) as Hne.
    { intros Heq. rewrite Hfresh in Heq.
      assert (bands ∈ dom (Obj.band_lists σ)) as Hdom by (apply elem_of_dom; eauto).
      rewrite Heq in Hdom. by apply is_fresh in Hdom. }
    assert (Obj.lane_value mutated o
            = Obj.lane_value (Obj.set_bands σ (Obj.bands o) bs) o) as Hsame.
    { unfold mutated. by apply lane_value_set_bands_ne. }
    split; [simpl; by rewrite lookup_insert_eq |].
    split; [unfold mutated; simpl; by rewrite lookup_insert_ne |].
    split; [eauto |]. split; [done |].
    intros dwg xCoord minBandSize maxBandSize p. unfold Obj.Lane_draw.
    by rewrite Hsame.
  - intros ls' mutated.
    apply Gel_init_Some in Hgel as (ls & vs & v & Hls & Hvs & Hv & Hfresh & Hσ2 & Hval).
    assert (lanes <> Obj.lanes g) as Hne.
    { intros Heq. rewrite Hfresh in Heq.
      assert (lanes ∈ dom (Obj.lane_lists σ')) as Hdom by (apply elem_of_dom; eauto).
      rewrite Heq in Hdom. by apply is_fresh in Hdom. }
    assert (Obj.lane_lists mutated !! Obj.lanes g = Obj.lane_lists σ2 !! Obj.lanes g)
      as Hlook by (unfold mutated; simpl; by rewrite lookup_insert_ne).
    assert (Obj.gel_value mutated g = Obj.gel_value σ2 g) as Hsame.
    { unfold Obj.gel_value. rewrite Hlook. reflexivity. }
    split; [rewrite Hσ2, lookup_insert_eq; done |].
    split; [done |]. split; [eauto |]. split; [done |].
    unfold Obj.Gel_draw. by rewrite Hsame.
Qed.

Lemma constructors_copy_their_sequences_witness :
  let b1 := Band.mk 110 "a" None 10%R in
  let b2 := Band.mk 140 "b" None 5%R in
  let σ := {| Obj.band_lists := {[ 1%positive := [b1; b2] ]}; Obj.lane_lists := ∅ |} in
  exists σ1 o σ2 g,
    Obj.Lane_init σ "1" 1%positive None false = Some (σ1, o)
    /\ Obj.Gel_init (Obj.set_lanes σ1 1%positive [o]) "tmp.svg" 1%positive None
         Gel.default_ladder Gel.default_boldLadder None = Some (Ok (σ2, g))
    /\ (forall bs' : list Band.t,
          Obj.band_lists σ1 !! Obj.bands o = Some [b1; b2]
          /\ Obj.lane_value (Obj.set_bands σ1 1%positive bs') o = Obj.lane_value σ1 o)
    /\ (forall ls' : list Obj.Lane,
          Obj.lane_lists σ2 !! Obj.lanes g = Some [o]
          /\ Obj.Gel_draw (Obj.set_lanes σ2 1%positive ls') g = Obj.Gel_draw σ2 g).
Proof.
  intros b1 b2 σ.
  destruct (Obj.Lane_init σ "1" 1%positive None false) as [[σ1 o]|] eqn:Hlane;
    [| discriminate Hlane].
  destruct (Obj.Gel_init (Obj.set_lanes σ1 1%positive [o]) "tmp.svg" 1%positive None
              Gel.default_ladder Gel.default_boldLadder None)
    as [[[σ2 g]|e]|] eqn:Hgel.
  - exists σ1, o, σ2, g. split; [reflexivity |]. split; [exact Hgel |].
    pose proof (constructors_copy_their_sequences σ σ1 "1" 1%positive None false o
                  _ σ2 "tmp.svg" 1%positive None Gel.default_ladder
                  Gel.default_boldLadder None g Hlane Hgel) as [HL HG].
    split.
    + intros bs'. destruct (HL bs') as (H1 & _ & _ & H4 & _).
      split; [rewrite H1; reflexivity | exact H4].
    + intros ls'. destruct (HG ls') as (H1 & _ & _ & _ & H5).
      split; [rewrite H1; simpl; apply lookup_insert_eq | exact H5].
  - exfalso. injection Hlane as <- <-. vm_compute in Hgel. discriminate Hgel.
  - exfalso. injection Hlane as <- <-. vm_compute in Hgel. discriminate Hgel.
Defined.

(** * Further properties of the code *)

(** ** One band per pixel row *)

Set Warnings "-clear-no-such-hyp".

Lemma Band_draw_length (band : Band.t) (dwg : svgwrite.Drawing) (xCoord yCoord : Z)
    (intensity : R) (dParam : option drawParams.t) (isLadder : bool) :
  List.length (svgwrite.elements
                 (Band.draw band dwg xCoord yCoord intensity dParam isLadder))
  = (List.length (svgwrite.elements dwg) + 2)%nat.
Proof.
  unfold Band.draw. destruct (Py.truthy (Band.link band)); simpl;
    rewrite !length_app; simpl; lia.
Qed.

(** The loop leaves in [SeenY] the rows of the bands it went over, and has
    added two elements for each row that was new. *)
Lemma draw_bands_rows (self : Lane.t) (xCoord low high : Z) (dParam : drawParams.t)
    (maxNum : R) (bs : list Band.t) (SeenY SeenY' : gmap Z Z)
    (dwg dwg' : svgwrite.Drawing) :
  Lane.draw_bands self xCoord low high dParam maxNum (SeenY, dwg) bs
  = Ok (SeenY', dwg') ->
  exists idxs : list Z,
    map_result (fun b => Lane.lengthtoIndex self b low high) bs = Ok idxs
    /\ dom SeenY'
       = dom SeenY
         ∪ list_to_set ((fun idx => idx + drawParams.margin dParam) <$> idxs)
    /\ (List.length (svgwrite.elements dwg') + 2 * size (dom SeenY)
        = List.length (svgwrite.elements dwg) + 2 * size (dom SeenY'))%nat.
Proof.
  unfold Lane.draw_bands. revert SeenY dwg.
  induction bs as [|b bs IH]; simpl; intros SeenY dwg H.
  - injection H as <- <-. exists []. split; [done |]. split; [set_solver | lia].
  - apply bind_Ok in H as ([S1 d1] & Hstep & H).
    destruct (IH S1 d1 H) as (idxs & Hidxs & Hdom & Hlen).
    unfold Lane.draw_band in Hstep.
    destruct (Lane.lengthtoIndex self b low high) as [idx|e]; [| done].
    destruct (Lane.intensity self maxNum b) as [i|e]; [| done].
    cbn [mbind result_bind] in Hstep |- *.
    rewrite Hidxs. cbn [mbind result_bind].
    exists (idx :: idxs). split; [done |]. simpl.
    destruct (SeenY !! (idx + drawParams.margin dParam)) as [v|] eqn:Hseen.
    + injection Hstep as <- <-. split; [| done].
      assert (idx + drawParams.margin dParam ∈ dom SeenY)
        by (apply elem_of_dom; eauto).
      rewrite Hdom. set_solver.
    + injection Hstep as <- <-. rewrite dom_insert_L in Hdom, Hlen.
      apply not_elem_of_dom in Hseen.
      split; [rewrite Hdom; set_solver |].
      rewrite Band_draw_length in Hlen.
      rewrite size_union in Hlen by set_solver. rewrite size_singleton in Hlen. lia.
Qed.

(** X4. A call of [Lane.draw] that returns has added the lane's name and
    two elements for every distinct pixel row ([yCoord]) its bands map to,
    however many bands share a row. *)
Theorem Lane_draw_two_elements_per_row (self : Lane.t) (dwg dwg' : svgwrite.Drawing)
    (xCoord minBandSize maxBandSize : Z) (dParam : option drawParams.t) :
  Lane.draw self dwg xCoord minBandSize maxBandSize dParam = Ok dwg' ->
  exists idxs : list Z,
    map_result (fun b => Lane.lengthtoIndex self b minBandSize maxBandSize)
               (Lane.bands self) = Ok idxs
    /\ List.length (svgwrite.elements dwg')
       = (List.length (svgwrite.elements dwg) + 1
          + 2 * size (list_to_set
                        ((fun idx =>
                            idx + drawParams.margin (drawParams.or_default dParam))%Z
                         <$> idxs) : gset Z))%nat.
Proof.
  unfold Lane.draw. intros H.
  apply bind_Ok in H as (maxNum & _ & H). apply bind_Ok in H as ([S d] & Hpass & H).
  injection H as <-.
  apply draw_bands_rows in Hpass as (idxs & Hidxs & Hdom & Hlen).
  exists idxs. split; [done |].
  rewrite dom_empty_L, size_empty in Hlen. rewrite Hdom, dom_empty_L in Hlen.
  rewrite (left_id_L ∅ (∪)) in Hlen. simpl in Hlen. rewrite length_app in Hlen.
  simpl in Hlen. lia.
Qed.

Lemma Lane_draw_two_elements_per_row_witness :
  let b1 := Band.mk 200 "first" None 10%R in
  let b2 := Band.mk 200 "second" None 5%R in
  let dwg := svgwrite.mkDrawing "tmp.svg" "tiny" [] [] in
  exists dwg' idxs,
    Lane.draw (Lane.init "1" [b1; b2] None false) dwg 80 100 200
              (Some drawParams.default) = Ok dwg'
    /\ map_result (fun b => Lane.lengthtoIndex (Lane.init "1" [b1; b2] None false)
                              b 100 200) [b1; b2] = Ok idxs
    /\ List.length (svgwrite.elements dwg')
       = (0 + 1
          + 2 * size (list_to_set ((fun idx => idx + 60)%Z <$> idxs) : gset Z))%nat.
Proof.
  intros b1 b2 dwg.
  destruct (Lane_draw_total (Lane.init "1" [b1; b2] None false) dwg 80 100 200
              (Some drawParams.default)) as (dwg' & Hdraw).
  - simpl. lia.
  - lia.
  - lia.
  - lia.
  - done.
  - repeat (constructor; [simpl; lia |]). constructor.
  - right. repeat (constructor; [simpl; lra |]). constructor.
  - exists dwg'.
    destruct (Lane_draw_two_elements_per_row _ _ _ _ _ _ _ Hdraw) as (idxs & H1 & H2).
    exists idxs. split; [exact Hdraw |]. split; [exact H1 | exact H2].
Defined.

(** ** Lanes that cannot be drawn *)

Lemma Lane_draw_no_bands (self : Lane.t) (dwg : svgwrite.Drawing)
    (xCoord low high : Z) (dParam : option drawParams.t) :
  Lane.bands self = [] ->
  Lane.draw self dwg xCoord low high dParam = Raise (ValueError_empty "max").
Proof. intros H. unfold Lane.draw. by rewrite H. Qed.

Lemma scan_none_included (ladderBands boldLadder : list Z) (minN maxN : Z)
    (st : Gel.scan) :
  List.Forall (fun m => m <= minN) ladderBands
  \/ List.Forall (fun m => maxN <= m) ladderBands ->
  fold_left (Gel.scan_marker ladderBands boldLadder minN maxN)
            (Gel.enumerate ladderBands) st = st.
Proof.
  intros Hall. apply fold_left_fixed. intros [i m] Hin.
  apply (In_enumerate_from 0) in Hin as (Hi & Hm).
  rewrite Nat.sub_0_r in Hm.
  assert (forall j, (j < List.length ladderBands)%nat -> In (nth j ladderBands 0) ladderBands)
    as Hnth by (intros j Hj; by apply nth_In).
  assert (In m ladderBands) as Hm' by (rewrite <- Hm; apply Hnth; lia).
  destruct Hall as [Hall|Hall]; rewrite List.Forall_forall in Hall.
  - apply scan_marker_outside; [left; auto | right; auto |].
    left. apply Hall, Hnth. lia.
  - apply scan_marker_outside; [right; auto | | right; auto].
    left. apply Hall, Hnth. lia.
Qed.

(** X5. When every canonical marker is at most the smallest data length, or
    at least the largest, the Gel is constructed with a ladder of no bands,
    and [Gel.draw] then raises: the ladder lane is drawn first and takes
    [max] of its empty [reads]. *)
Theorem Gel_draw_empty_ladder (tmp : string) (lanes : list Lane.t)
    (dParam : option drawParams.t) (ladder boldLadder : list Z)
    (filename : option string) (lo hi : Z) :
  Gel.data_range lanes = Ok (lo, hi) ->
  List.Forall (fun m => m <= lo) ladder \/ List.Forall (fun m => hi <= m) ladder ->
  exists g,
    Gel.init tmp lanes dParam ladder boldLadder filename = Ok g
    /\ Lane.bands (Gel.ladder g) = []
    /\ Gel.draw g = Raise (ValueError_empty "max").
Proof.
  intros Hrange Hall.
  assert (exists g, Gel.init tmp lanes dParam ladder boldLadder filename = Ok g
                    /\ Lane.bands (Gel.ladder g) = []) as (g & Hinit & Hbands).
  { unfold Gel.init, Gel.makeLadder. rewrite Hrange. cbn [mbind result_bind].
    rewrite (scan_none_included ladder boldLadder lo hi _ Hall).
    destruct (Py.truthy filename); eexists; (split; [reflexivity | done]). }
  exists g. split; [done |]. split; [done |].
  unfold Gel.draw. by rewrite Lane_draw_no_bands.
Qed.

Lemma Gel_draw_empty_ladder_witness :
  exists g,
    Gel.init "tmp.svg"
      [Lane.init "1" [Band.mk 3000 "a" None 10%R; Band.mk 4000 "b" None 5%R] None false]
      None Gel.default_ladder Gel.default_boldLadder None = Ok g
    /\ Lane.bands (Gel.ladder g) = []
    /\ Gel.draw g = Raise (ValueError_empty "max").
Proof.
  apply (Gel_draw_empty_ladder "tmp.svg" _ None Gel.default_ladder
           Gel.default_boldLadder None 3000 4000).
  - reflexivity.
  - left. repeat (constructor; [lia |]). constructor.
Defined.

(** X6. A data lane whose largest [reads] is zero is not drawn: the first
    turn of the loop raises, with the error of the row of the first band if
    that fails, and with the division by zero of the normalisation if not. *)
Theorem Lane_draw_zero_reads (self : Lane.t) (dwg : svgwrite.Drawing)
    (xCoord low high : Z) (dParam : option drawParams.t) :
  Lane.isLadder self = false ->
  Py.max_R (map Band.reads (Lane.bands self)) = Ok 0%R ->
  exists b rest,
    Lane.bands self = b :: rest
    /\ Lane.draw self dwg xCoord low high dParam
       = Raise (match Lane.lengthtoIndex self b low high with
                | Raise e => e
                | Ok _ => ZeroDivisionError
                end).
Proof.
  intros Hdata Hmax. unfold Lane.draw. rewrite Hmax. cbn [mbind result_bind].
  destruct (Lane.bands self) as [|b rest]; [done |].
  exists b, rest. split; [done |].
  unfold Lane.draw_bands. simpl. unfold Lane.draw_band.
  destruct (Lane.lengthtoIndex self b low high) as [idx|e]; [| done].
  cbn [mbind result_bind]. unfold Lane.intensity. rewrite Hdata.
  destruct (Req_dec_T 0 0); done.
Qed.

Lemma Lane_draw_zero_reads_witness :
  let b1 := Band.mk 100 "a" None 0%R in
  let b2 := Band.mk 200 "b" None 0%R in
  let self := Lane.init "1" [b1; b2] None false in
  exists b rest,
    Lane.bands self = b :: rest
    /\ Lane.draw self (svgwrite.mkDrawing "tmp.svg" "tiny" [] []) 80 100 200 None
       = Raise (match Lane.lengthtoIndex self b 100 200 with
                | Raise e => e
                | Ok _ => ZeroDivisionError
                end).
Proof.
  intros b1 b2 self. apply Lane_draw_zero_reads; [reflexivity |].
  simpl. unfold Py.max2_R. destruct (Rlt_dec 0 0); reflexivity.
Defined.

(** X7. In a data lane with a positive largest [reads], a band with more
    [reads] is never drawn dimmer than one with fewer. *)
Theorem data_lane_intensity_monotone (self : Lane.t) (maxNum : R) (b1 b2 : Band.t) :
  Lane.isLadder self = false ->
  (0 < maxNum)%R ->
  (Band.reads b1 <= Band.reads b2)%R ->
  exists i1 i2 : R,
    Lane.intensity self maxNum b1 = Ok i1
    /\ Lane.intensity self maxNum b2 = Ok i2
    /\ (i1 <= i2)%R.
Proof.
  intros Hdata Hmax Hle. unfold Lane.intensity. rewrite Hdata.
  destruct (Req_dec_T maxNum 0) as [->|_]; [lra |].
  eexists _, _. split; [reflexivity |]. split; [reflexivity |].
  assert (1 - (maxNum - Band.reads b1) / maxNum
          <= 1 - (maxNum - Band.reads b2) / maxNum)%R as Hval.
  { assert (0 < / maxNum)%R as Hinv by (by apply Rinv_0_lt_compat).
    unfold Rdiv. nra. }
  unfold Py.max2_R.
  destruct (Rlt_dec _ Lane.minBandIntensity), (Rlt_dec _ Lane.minBandIntensity); lra.
Qed.

Lemma data_lane_intensity_monotone_witness :
  exists i1 i2 : R,
    Lane.intensity (Lane.init "1" [] None false) 10 (Band.mk 100 "a" None 1%R) = Ok i1
    /\ Lane.intensity (Lane.init "1" [] None false) 10 (Band.mk 200 "b" None 5%R) = Ok i2
    /\ (i1 <= i2)%R.
Proof.
  apply data_lane_intensity_monotone; [reflexivity | lra | simpl; lra].
Defined.

(** ** What the scan of the markers builds *)

Lemma enumerate_from_cons {A : Type} (k : nat) (x : A) (xs : list A) :
  Gel.enumerate_from k (x :: xs) = (k, x) :: Gel.enumerate_from (S k) xs.
Proof. done. Qed.

Lemma scan_marker_cases (ladderBands boldLadder : list Z) (minN maxN : Z)
    (st : Gel.scan) (i : nat) (m : Z) :
  (i < List.length ladderBands)%nat ->
  let st' := Gel.scan_marker ladderBands boldLadder minN maxN st (i, m) in
  (Gel.bands st' = Gel.bands st /\ ~ (minN < m < maxN)
   \/ Gel.bands st' = Gel.bands st ++ [Gel.marker_band boldLadder m])
  /\ (Gel.newMin st' = Gel.newMin st \/ In (Gel.newMin st') ladderBands)
  /\ (Gel.newMax st' = Gel.newMax st \/ In (Gel.newMax st') ladderBands).
Proof.
  intros Hi. unfold Gel.scan_marker.
  assert (In (nth (Nat.max 0 (i - 1)) ladderBands 0) ladderBands) as H1
    by (apply nth_In; lia).
  assert (In (nth (Nat.min (List.length ladderBands - 1) (i + 1)) ladderBands 0)
             ladderBands) as H2 by (apply nth_In; lia).
  set (v1 := nth (Nat.max 0 (i - 1)) ladderBands 0) in *.
  set (v2 := nth (Nat.min (List.length ladderBands - 1) (i + 1)) ladderBands 0) in *.
  destruct ((m <? maxN) && (minN <? m) || (v1 <? maxN) && (minN <? m)
            || (minN <? v2) && (m <? maxN)) eqn:Hc; simpl.
  - split; [by right |].
    split; [destruct (_ && (v1 <? _)) | destruct (_ && (_ <? v2))]; auto.
  - split; [| auto]. left. split; [done |]. intros [Hlo Hhi].
    apply orb_false_elim in Hc as [Hc _]. apply orb_false_elim in Hc as [Hc _].
    apply andb_false_iff in Hc. rewrite !Z.ltb_ge in Hc. lia.
Qed.

Lemma scan_shape (ladderBands boldLadder : list Z) (minN maxN : Z)
    (xs : list Z) (k : nat) (st : Gel.scan) :
  (k + List.length xs <= List.length ladderBands)%nat ->
  let st' := fold_left (Gel.scan_marker ladderBands boldLadder minN maxN)
                       (Gel.enumerate_from k xs) st in
  (exists ms,
     Gel.bands st' = Gel.bands st ++ map (Gel.marker_band boldLadder) ms
     /\ sublist ms xs
     /\ (forall m, In m xs -> minN < m < maxN -> In m ms))
  /\ (Gel.newMin st' = Gel.newMin st \/ In (Gel.newMin st') ladderBands)
  /\ (Gel.newMax st' = Gel.newMax st \/ In (Gel.newMax st') ladderBands).
Proof.
  revert k st. induction xs as [|x xs IH]; intros k st Hk; cbv zeta.
  - simpl. split; [| auto]. exists []. simpl. rewrite app_nil_r.
    split; [done |]. split; [constructor | done].
  - simpl in Hk. rewrite enumerate_from_cons. cbn [fold_left].
    destruct (scan_marker_cases ladderBands boldLadder minN maxN st k x)
      as (Hb & Hmin & Hmax); [lia |].
    set (st1 := Gel.scan_marker ladderBands boldLadder minN maxN st (k, x)) in *.
    destruct (IH (S k) st1) as ((ms & Hbands & Hsub & Hin) & Hmin' & Hmax'); [lia |].
    split; [| split].
    + destruct Hb as [[Hb Hout]|Hb].
      * exists ms. rewrite Hbands, Hb. split; [done |].
        split; [by apply sublist_cons |].
        intros m [<-|Hm] Hr; [done | auto].
      * exists (x :: ms). rewrite Hbands, Hb, <- app_assoc. split; [done |].
        split; [by apply sublist_skip |].
        intros m [<-|Hm] Hr; [by left | right; auto].
    + destruct Hmin' as [->|]; auto.
    + destruct Hmax' as [->|]; auto.
Qed.

Lemma makeLadder_shape (lanes : list Lane.t) (ladderBands boldLadder : list Z)
    (bands : list Band.t) (minN maxN : Z) :
  Gel.makeLadder lanes ladderBands boldLadder = Ok (bands, minN, maxN) ->
  exists lo hi ms,
    Gel.data_range lanes = Ok (lo, hi)
    /\ bands = map (Gel.marker_band boldLadder) ms
    /\ sublist ms ladderBands
    /\ (forall m, In m ladderBands -> lo < m < hi -> In m ms)
    /\ (minN = lo \/ minN < lo /\ (minN = 1000 \/ In minN ladderBands))
    /\ (maxN = hi \/ hi < maxN /\ In maxN ladderBands).
Proof.
  unfold Gel.makeLadder. intros H. apply bind_Ok in H as ([lo hi] & Hrange & H).
  destruct (scan_shape ladderBands boldLadder lo hi ladderBands 0
              {| Gel.bands := []; Gel.newMin := 1000; Gel.newMax := 0 |})
    as ((ms & Hbands & Hsub & Hin) & Hmin & Hmax); [simpl; lia |].
  fold (Gel.enumerate ladderBands) in Hbands, Hmin, Hmax.
  injection H as <- <- <-. exists lo, hi, ms. split; [done |].
  split; [done |]. split; [done |]. split; [done |]. simpl in Hmin, Hmax. split.
  - destruct (negb _ && (_ <? lo)) eqn:Hc; [| by left].
    apply andb_prop in Hc as [_ Hc]. apply Z.ltb_lt in Hc. right. split; [done |].
    destruct Hmin; auto.
  - destruct (negb _ && (hi <? _)) eqn:Hc; [| by left].
    apply andb_prop in Hc as [Hz Hc]. apply Z.ltb_lt in Hc.
    apply negb_true_iff, Z.eqb_neq in Hz. right. split; [done |].
    destruct Hmax as [Hmax|Hmax]; [done | done].
Qed.

(** X8. The ladder of a constructed Gel holds bands of canonical markers
    only, in the order of the canonical list and each marker at most as
    often as it stands there; every marker strictly inside the range of the
    data is among them. *)
Theorem ladder_bands_are_markers (tmp : string) (lanes : list Lane.t)
    (dParam : option drawParams.t) (ladder boldLadder : list Z)
    (filename : option string) (g : Gel.t) :
  Gel.init tmp lanes dParam ladder boldLadder filename = Ok g ->
  exists lo hi ms,
    Gel.data_range lanes = Ok (lo, hi)
    /\ Lane.bands (Gel.ladder g) = map (Gel.marker_band boldLadder) ms
    /\ sublist ms ladder
    /\ (forall m, In m ladder -> lo < m < hi -> In m ms).
Proof.
  intros H. apply init_Ok in H as (bands & Hm & Hb & _).
  apply makeLadder_shape in Hm as (lo & hi & ms & Hr & -> & Hsub & Hin & _).
  exists lo, hi, ms. done.
Qed.

Lemma ladder_bands_are_markers_witness :
  exists g,
    Gel.init "tmp.svg"
      [Lane.init "1" [Band.mk 110 "a" None 10%R; Band.mk 140 "b" None 5%R] None false]
      None Gel.default_ladder Gel.default_boldLadder None = Ok g
    /\ exists lo hi ms,
      Gel.data_range
        [Lane.init "1" [Band.mk 110 "a" None 10%R; Band.mk 140 "b" None 5%R] None false]
      = Ok (lo, hi)
      /\ Lane.bands (Gel.ladder g) = map (Gel.marker_band Gel.default_boldLadder) ms
      /\ sublist ms Gel.default_ladder
      /\ (forall m, In m Gel.default_ladder -> lo < m < hi -> In m ms).
Proof.
  eexists. split; [reflexivity |].
  apply (ladder_bands_are_markers "tmp.svg" _ None Gel.default_ladder
           Gel.default_boldLadder None).
  reflexivity.
Defined.

(** X9. Where the construction widens the range of the data, the upper end
    becomes a canonical marker above the data, and the lower end a canonical
    marker below the data or 1000, the value [newMin] starts from. *)
Theorem Gel_range_ends (tmp : string) (lanes : list Lane.t)
    (dParam : option drawParams.t) (ladder boldLadder : list Z)
    (filename : option string) (g : Gel.t) :
  Gel.init tmp lanes dParam ladder boldLadder filename = Ok g ->
  exists lo hi,
    Gel.data_range lanes = Ok (lo, hi)
    /\ (Gel.minNBases g = lo
        \/ Gel.minNBases g < lo
           /\ (Gel.minNBases g = 1000 \/ In (Gel.minNBases g) ladder))
    /\ (Gel.maxNBases g = hi
        \/ hi < Gel.maxNBases g /\ In (Gel.maxNBases g) ladder).
Proof.
  intros H. apply init_Ok in H as (bands & Hm & _).
  apply makeLadder_shape in Hm as (lo & hi & ms & Hr & _ & _ & _ & Hmin & Hmax).
  exists lo, hi. done.
Qed.

Lemma Gel_range_ends_witness :
  exists g,
    Gel.init "tmp.svg"
      [Lane.init "1" [Band.mk 1300 "a" None 10%R; Band.mk 1900 "b" None 5%R] None false]
      None Gel.default_ladder Gel.default_boldLadder None = Ok g
    /\ exists lo hi,
      Gel.data_range
        [Lane.init "1" [Band.mk 1300 "a" None 10%R; Band.mk 1900 "b" None 5%R]
           None false]
      = Ok (lo, hi)
      /\ (Gel.minNBases g = lo
          \/ Gel.minNBases g < lo
             /\ (Gel.minNBases g = 1000 \/ In (Gel.minNBases g) Gel.default_ladder))
      /\ (Gel.maxNBases g = hi
          \/ hi < Gel.maxNBases g /\ In (Gel.maxNBases g) Gel.default_ladder).
Proof.
  eexists. split; [reflexivity |].
  apply (Gel_range_ends "tmp.svg" _ None Gel.default_ladder
           Gel.default_boldLadder None).
  reflexivity.
Defined.

(** ** When a Gel is constructed *)

Lemma init_of_range (tmp : string) (lanes : list Lane.t)
    (dParam : option drawParams.t) (ladder boldLadder : list Z)
    (filename : option string) (lo hi : Z) :
  Gel.data_range lanes = Ok (lo, hi) ->
  exists g, Gel.init tmp lanes dParam ladder boldLadder filename = Ok g
            /\ Gel.dParam g = drawParams.or_default dParam.
Proof.
  intros Hrange. unfold Gel.init, Gel.makeLadder. rewrite Hrange.
  cbn [mbind result_bind].
  destruct (Py.truthy filename); eexists; (split; [reflexivity | done]).
Qed.

(** X10. [Gel.__init__] returns exactly when there is a lane and every lane
    has a band; in every other case it raises the error of [max] on an
    empty sequence, and no other error. *)
Theorem Gel_init_returns_or_raises (tmp : string) (lanes : list Lane.t)
    (dParam : option drawParams.t) (ladder boldLadder : list Z)
    (filename : option string) :
  (lanes <> [] /\ List.Forall (fun lane => Lane.bands lane <> []) lanes
   /\ exists g, Gel.init tmp lanes dParam ladder boldLadder filename = Ok g)
  \/ ((lanes = [] \/ exists lane, In lane lanes /\ Lane.bands lane = [])
      /\ Gel.init tmp lanes dParam ladder boldLadder filename
         = Raise (ValueError_empty "max")).
Proof.
  destruct (Gel.data_range lanes) as [[lo hi]|e] eqn:Hrange.
  - left.
    assert (~ (lanes = [] \/ exists lane, In lane lanes /\ Lane.bands lane = []))
      as Hno.
    { intros H. apply data_range_empty in H. congruence. }
    split; [intros ->; apply Hno; by left |].
    split.
    + apply List.Forall_forall. intros lane Hin Hnil. apply Hno. eauto.
    + destruct (init_of_range tmp lanes dParam ladder boldLadder filename lo hi Hrange)
        as (g & Hg & _). eauto.
  - right. apply data_range_Raise in Hrange as Hempty. split; [done |].
    apply data_range_empty in Hempty.
    unfold Gel.init, Gel.makeLadder. rewrite Hempty.
    destruct (Py.truthy filename); done.
Qed.

(** ** What the constructors and [draw] leave alone *)

Lemma Gel_init_band_lists (σ σ2 : Obj.store) (tmp : string) (r : Obj.loc)
    (dParam : option drawParams.t) (ladder boldLadder : list Z)
    (filename : option string) (g : Obj.Gel) (l : Obj.loc) :
  Obj.Gel_init σ tmp r dParam ladder boldLadder filename = Some (Ok (σ2, g)) ->
  l ∈ dom (Obj.band_lists σ) ->
  Obj.band_lists σ2 !! l = Obj.band_lists σ !! l.
Proof.
  unfold Obj.Gel_init.
  destruct (Obj.lane_lists σ !! r) as [ls|]; [| done]. simpl.
  destruct (mapM (Obj.lane_value σ) ls) as [vs|]; [| done]. simpl.
  destruct (Gel.init tmp vs dParam ladder boldLadder filename) as [v|e]; [| done].
  destruct (Obj.Lane_init _ _ _ _ _) as [[σ3 lad]|] eqn:Hlad; [| done]. simpl.
  intros [= <- <-] Hl.
  apply Lane_init_Some in Hlad as (bs & _ & Hfresh & -> & _). simpl.
  rewrite lookup_insert_ne; cycle 1.
  { intros Heq. rewrite Hfresh in Heq.
    match type of Heq with fresh ?X = _ =>
      pose proof (is_fresh X) as Hnf; set (y := fresh X) in * end.
    apply Hnf. simpl. rewrite dom_insert_L. apply elem_of_union_r. by rewrite Heq. }
  rewrite lookup_insert_ne; [done |].
  intros Heq. rewrite <- Heq in Hl. by apply is_fresh in Hl.
Qed.

(** X12. The constructors do not touch the lists they are given, nor any
    other list that exists: [Lane.__init__] and [Gel.__init__] put their
    copies at places that were not in use, and every list that was in the
    store holds afterwards what it held before. *)
Theorem constructors_leave_lists_alone
    (σ σ1 : Obj.store) (name : string) (bands : Obj.loc)
    (dParam : option drawParams.t) (isLadder : bool) (o : Obj.Lane)
    (σ' σ2 : Obj.store) (tmp : string) (lanes : Obj.loc)
    (dParam' : option drawParams.t) (ladder boldLadder : list Z)
    (filename : option string) (g : Obj.Gel) :
  Obj.Lane_init σ name bands dParam isLadder = Some (σ1, o) ->
  Obj.Gel_init σ' tmp lanes dParam' ladder boldLadder filename = Some (Ok (σ2, g)) ->
  ((Obj.bands o ∉ dom (Obj.band_lists σ))
   /\ (forall l, l ∈ dom (Obj.band_lists σ) ->
                 Obj.band_lists σ1 !! l = Obj.band_lists σ !! l)
   /\ Obj.lane_lists σ1 = Obj.lane_lists σ)
  /\ ((Obj.lanes g ∉ dom (Obj.lane_lists σ'))
      /\ (forall l, l ∈ dom (Obj.lane_lists σ') ->
                    Obj.lane_lists σ2 !! l = Obj.lane_lists σ' !! l)
      /\ (forall l, l ∈ dom (Obj.band_lists σ') ->
                    Obj.band_lists σ2 !! l = Obj.band_lists σ' !! l)).
Proof.
  intros Hlane Hgel. split.
  - apply Lane_init_Some in Hlane as (bs & _ & Hfresh & -> & _).
    split; [rewrite Hfresh; apply is_fresh |]. split; [| done].
    intros l Hl. simpl. rewrite lookup_insert_ne; [done |].
    intros Heq. rewrite Hfresh in Heq. rewrite <- Heq in Hl. by apply is_fresh in Hl.
  - pose proof (fun l => Gel_init_band_lists _ _ _ _ _ _ _ _ _ l Hgel) as Hbands.
    apply Gel_init_Some in Hgel as (ls & vs & v & _ & _ & _ & Hfresh & Hσ2 & _).
    split; [rewrite Hfresh; apply is_fresh |]. split; [| by intros l; apply Hbands].
    intros l Hl. rewrite Hσ2, lookup_insert_ne; [done |].
    intros Heq. rewrite Hfresh in Heq. rewrite <- Heq in Hl. by apply is_fresh in Hl.
Qed.

Lemma constructors_leave_lists_alone_witness :
  let b1 := Band.mk 110 "a" None 10%R in
  let b2 := Band.mk 140 "b" None 5%R in
  let σ := {| Obj.band_lists := {[ 1%positive := [b1; b2] ]}; Obj.lane_lists := ∅ |} in
  exists σ1 o σ2 g,
    Obj.Lane_init σ "1" 1%positive None false = Some (σ1, o)
    /\ Obj.Gel_init (Obj.set_lanes σ1 1%positive [o]) "tmp.svg" 1%positive None
         Gel.default_ladder Gel.default_boldLadder None = Some (Ok (σ2, g))
    /\ Obj.band_lists σ1 !! 1%positive = Some [b1; b2]
    /\ Obj.lane_lists σ2 !! 1%positive = Some [o]
    /\ Obj.band_lists σ2 !! 1%positive = Some [b1; b2].
Proof.
  intros b1 b2 σ.
  destruct (Obj.Lane_init σ "1" 1%positive None false) as [[σ1 o]|] eqn:Hlane;
    [| discriminate Hlane].
  destruct (Obj.Gel_init (Obj.set_lanes σ1 1%positive [o]) "tmp.svg" 1%positive None
              Gel.default_ladder Gel.default_boldLadder None)
    as [[[σ2 g]|e]|] eqn:Hgel.
  - exists σ1, o, σ2, g. split; [reflexivity |]. split; [exact Hgel |].
    pose proof (constructors_leave_lists_alone σ σ1 "1" 1%positive None false o
                  _ σ2 "tmp.svg" 1%positive None Gel.default_ladder
                  Gel.default_boldLadder None g Hlane Hgel)
      as [(_ & HL & _) (_ & HG1 & HG2)].
    assert (1%positive ∈ dom (Obj.band_lists σ)) as Hdom
      by (apply elem_of_dom; unfold σ; simpl; rewrite lookup_singleton_eq; eauto).
    assert (Obj.band_lists σ1 !! 1%positive = Some [b1; b2]) as H1
      by (etrans; [exact (HL _ Hdom) |]; unfold σ; simpl; apply lookup_singleton_eq).
    split; [exact H1 |]. split.
    + etrans; [apply HG1 |]; [| simpl; apply lookup_insert_eq].
      apply elem_of_dom. simpl. rewrite lookup_insert_eq. eauto.
    + etrans; [apply HG2 |]; [| exact H1]. apply elem_of_dom. simpl. eauto.
  - exfalso. injection Hlane as <- <-. vm_compute in Hgel. discriminate Hgel.
  - exfalso. injection Hlane as <- <-. vm_compute in Hgel. discriminate Hgel.
Defined.

Lemma add_all_frame (dwg : svgwrite.Drawing) (es : list svgwrite.Element) :
  svgwrite.filename (svgwrite.add_all dwg es) = svgwrite.filename dwg
  /\ svgwrite.profile (svgwrite.add_all dwg es) = svgwrite.profile dwg
  /\ svgwrite.stylesheets (svgwrite.add_all dwg es) = svgwrite.stylesheets dwg.
Proof.
  revert dwg. induction es as [|e es IH]; intros dwg; [done |].
  rewrite <- add_all_cons. destruct (IH (svgwrite.add dwg e)) as (-> & -> & ->). done.
Qed.

(** X13. A call of [Gel.draw] that returns changes nothing of the Gel but
    its drawing, and of the drawing only the elements, by adding at the
    end; what it hands out is that drawing, saved when the Gel has a file
    name and returned as a string when it has none. *)
Theorem Gel_draw_frame (self self' : Gel.t) (out : Gel.output) :
  Gel.draw self = Ok (self', out) ->
  Gel.lanes self' = Gel.lanes self
  /\ Gel.ladder self' = Gel.ladder self
  /\ Gel.minNBases self' = Gel.minNBases self
  /\ Gel.maxNBases self' = Gel.maxNBases self
  /\ Gel.dParam self' = Gel.dParam self
  /\ Gel.filename self' = Gel.filename self
  /\ svgwrite.filename (Gel.dwg self') = svgwrite.filename (Gel.dwg self)
  /\ svgwrite.profile (Gel.dwg self') = svgwrite.profile (Gel.dwg self)
  /\ svgwrite.stylesheets (Gel.dwg self') = svgwrite.stylesheets (Gel.dwg self)
  /\ (exists es, svgwrite.elements (Gel.dwg self')
                 = svgwrite.elements (Gel.dwg self) ++ es)
  /\ out = (if Py.truthy (Gel.filename self)
            then Gel.Saved (default EmptyString (Gel.filename self)) (Gel.dwg self')
            else Gel.Returned (Gel.dwg self')).
Proof.
  intros H. destruct (Gel_draw_adds self self' out H) as (es & _ & Hdraw).
  specialize (Hdraw (Gel.dwg self)). cbv beta zeta in Hdraw.
  replace {| Gel.boldLadder := Gel.boldLadder self; Gel.lanes := Gel.lanes self;
             Gel.dParam := Gel.dParam self; Gel.tempFile := Gel.tempFile self;
             Gel.filename := Gel.filename self; Gel.dwg := Gel.dwg self;
             Gel.maxNBases := Gel.maxNBases self; Gel.minNBases := Gel.minNBases self;
             Gel.ladder := Gel.ladder self |} with self in Hdraw by (by destruct self).
  rewrite H in Hdraw. injection Hdraw as -> ->. simpl.
  destruct (add_all_frame (Gel.dwg self) es) as (-> & -> & ->).
  repeat (split; [done |]). split; [| done].
  exists es. apply add_all_elements.
Qed.

Lemma Gel_draw_frame_witness :
  exists g g' out,
    Gel.init "tmp.svg"
      [Lane.init "1" [Band.mk 110 "a" None 10%R; Band.mk 140 "b" None 5%R] None false]
      None Gel.default_ladder Gel.default_boldLadder None = Ok g
    /\ Gel.draw g = Ok (g', out)
    /\ Gel.lanes g' = Gel.lanes g
    /\ out = Gel.Returned (Gel.dwg g').
Proof.
  destruct example_gel_draws as (g & g' & out & Hinit & Hdraw).
  exists g, g', out. split; [exact Hinit |]. split; [exact Hdraw |].
  destruct (Gel_draw_frame g g' out Hdraw)
    as (Hl & _ & _ & _ & _ & _ & _ & _ & _ & _ & Hout).
  split; [exact Hl |]. rewrite Hout.
  cbv -[IZR Q2R] in Hinit. injection Hinit as <-. reflexivity.
Defined.
